(** * my-resource-cards: a shallow embedding of [build.js]

    The repository is one script, present in two revisions that share the
    parser, [slugify], [escapeHtml] and the orchestrator and differ in the
    metadata fetcher and the collection-page renderer.  They are called
    variant A (placeholder images, display URL, generic-description filter)
    and variant B (empty image fallback, description paragraph).

    Conventions of the embedding.
    - A JavaScript string is a Rocq [string]; each [ascii] stands for one
      UTF-16 code unit in the range 0..255, so the development speaks about
      strings of that range.  [String.length] is the JS [length].
    - [undefined] and [null] results of the DOM queries are [None].
    - The platform pieces the script calls but does not define (the WHATWG
      [URL] constructor, the network, the HTML query engine) are inputs of
      the model: a parser [string -> option URLobj], and a [FetchOutcome]
      that already carries what the selectors of the script would return.
    - Exceptions are explicit: fallible code returns a [Result].
    - Console output and the 500 ms pause between fetches are not modelled. *)

From Stdlib Require Import ZArith NArith Ascii String List Lia Bool.
From stdpp Require Import gmap strings list fin_maps pretty.

Open Scope string_scope.

(** Left-to-right application, to write method chains in source order. *)
Notation "x |> f" := (f x) (at level 45, left associativity, only parsing).

(* ===================================================================== *)
(** ** The JavaScript string primitives the script uses *)
(* ===================================================================== *)

Module JS.

Definition code (c : ascii) : N := N_of_ascii c.

Definition in_range (lo hi : N) (c : ascii) : bool :=
  (lo <=? code c)%N && (code c <=? hi)%N.

Definition is_char (n : N) (c : ascii) : bool := (code c =? n)%N.

Definition is_upper : ascii -> bool := in_range 65 90.
Definition is_lower : ascii -> bool := in_range 97 122.
Definition is_digit : ascii -> bool := in_range 48 57.

(** The regular-expression class [\w]: [A-Za-z0-9_]. *)
Definition is_word (c : ascii) : bool :=
  is_upper c || is_lower c || is_digit c || is_char 95 c.

(** The class [\s], which is also what [trim] strips: TAB, LF, VT, FF, CR,
    space and, in the range modelled, the no-break space U+00A0. *)
Definition is_space (c : ascii) : bool :=
  in_range 9 13 c || is_char 32 c || is_char 160 c.

Definition is_hyphen : ascii -> bool := is_char 45.

(** [toLowerCase] on one code unit: A-Z, and the Latin-1 capitals
    U+00C0..U+00DE except the multiplication sign U+00D7, move up by 32. *)
Definition lower_char (c : ascii) : ascii :=
  if is_upper c || (in_range 192 222 c && negb (is_char 215 c))
  then ascii_of_N (code c + 32)
  else c.

Fixpoint smap (f : ascii -> ascii) (s : string) : string :=
  match s with
  | EmptyString => EmptyString
  | String c s' => String (f c) (smap f s')
  end.

Definition toLowerCase : string -> string := smap lower_char.

(** [s.replace(/[class]/g, '')]: delete every character of the class. *)
Fixpoint remove_all (p : ascii -> bool) (s : string) : string :=
  match s with
  | EmptyString => EmptyString
  | String c s' => if p c then remove_all p s' else String c (remove_all p s')
  end.

(** [s.replace(/[class]/g, f)]: every character of the class is replaced
    by what the callback returns for it. *)
Fixpoint replace_each (p : ascii -> bool) (f : ascii -> string) (s : string)
  : string :=
  match s with
  | EmptyString => EmptyString
  | String c s' =>
      (if p c then f c else String c EmptyString) ++ replace_each p f s'
  end.

(** [s.replace(/[class]+/g, r)]: every maximal run of characters of the
    class becomes one [r].  [in_run] says that the previous character was
    in the class, so the current run has been replaced already. *)
Fixpoint replace_runs (p : ascii -> bool) (r : string) (in_run : bool)
  (s : string) : string :=
  match s with
  | EmptyString => EmptyString
  | String c s' =>
      if p c
      then (if in_run then replace_runs p r true s'
            else r ++ replace_runs p r true s')
      else String c (replace_runs p r false s')
  end.

Fixpoint trimStart (s : string) : string :=
  match s with
  | EmptyString => EmptyString
  | String c s' => if is_space c then trimStart s' else s
  end.

Fixpoint trimEnd (s : string) : string :=
  match s with
  | EmptyString => EmptyString
  | String c s' =>
      match trimEnd s' with
      | EmptyString => if is_space c then EmptyString else String c EmptyString
      | r => String c r
      end
  end.

Definition trim (s : string) : string := trimEnd (trimStart s).

Fixpoint startsWith (p s : string) : bool :=
  match p with
  | EmptyString => true
  | String a p' =>
      match s with
      | EmptyString => false
      | String b s' => Ascii.eqb a b && startsWith p' s'
      end
  end.

Fixpoint includes (p s : string) : bool :=
  startsWith p s
  || match s with
     | EmptyString => false
     | String _ s' => includes p s'
     end.

Fixpoint drop (n : nat) (s : string) : string :=
  match n, s with
  | S n', String _ s' => drop n' s'
  | _, _ => s
  end.

(** [s.substring(0, n)]. *)
Definition substring0 (n : nat) (s : string) : string := String.substring 0 n s.

(** [s.replace(p, r)] with a string pattern: the first occurrence only.
    The replacement texts of the script hold no [$], so no replacement
    pattern is involved. *)
Fixpoint replace (p r s : string) : string :=
  if startsWith p s then r ++ drop (String.length p) s
  else match s with
       | EmptyString => EmptyString
       | String c s' => String c (replace p r s')
       end.

(** [s.replace(/\/$/, '')]: a final slash is removed. *)
Fixpoint remove_final_slash (s : string) : string :=
  match s with
  | EmptyString => EmptyString
  | String c s' =>
      match s' with
      | EmptyString => if is_char 47 c then EmptyString else s
      | _ => String c (remove_final_slash s')
      end
  end.

(** [s.split('\n')]. *)
Fixpoint split_lines (s : string) : list string :=
  match s with
  | EmptyString => [EmptyString]
  | String c s' =>
      if is_char 10 c then EmptyString :: split_lines s'
      else match split_lines s' with
           | l :: ls => String c l :: ls
           | [] => [String c EmptyString]
           end
  end.

(** Every character of [s] passes the test [p]. *)
Fixpoint all_chars (p : ascii -> bool) (s : string) : bool :=
  match s with
  | EmptyString => true
  | String c s' => p c && all_chars p s'
  end.

Fixpoint last_char (s : string) : option ascii :=
  match s with
  | EmptyString => None
  | String c s' =>
      match last_char s' with
      | Some l => Some l
      | None => Some c
      end
  end.

(** Truthiness of a string, and [a || b] on possibly undefined strings. *)
Definition truthy (s : string) : bool := negb (String.eqb s EmptyString).

Definition truthy_opt (o : option string) : bool :=
  match o with
  | Some s => truthy s
  | None => false
  end.

Definition or_else (a b : option string) : option string :=
  if truthy_opt a then a else b.

(** [a || b] when [b] is a string: the result is a string. *)
Definition or_string (a : option string) (b : string) : string :=
  match a with
  | Some s => if truthy s then s else b
  | None => b
  end.

End JS.

(** The double quote, which the string literals below splice in. *)
Definition dq : string := String (ascii_of_N 34) EmptyString.

(* ===================================================================== *)
(** ** [slugify] and [escapeHtml] *)
(* ===================================================================== *)

(** The class [[^\w\s-]]. *)
Definition not_slug_source (c : ascii) : bool :=
  negb (JS.is_word c || JS.is_space c || JS.is_hyphen c).

Definition slugify (text : string) : string :=
  text
    |> JS.toLowerCase
    |> JS.remove_all not_slug_source
    |> JS.replace_runs JS.is_space "-" false
    |> JS.replace_runs JS.is_hyphen "-" false
    |> JS.trim.

(** The class of [escapeHtml]: ampersand, less-than, greater-than, double
    quote and apostrophe. *)
Definition is_html_special (c : ascii) : bool :=
  JS.is_char 38 c || JS.is_char 60 c || JS.is_char 62 c
  || JS.is_char 34 c || JS.is_char 39 c.

(** The object [map] of [escapeHtml]; a key it does not hold reads as
    [undefined]. *)
Definition html_entity (m : ascii) : option string :=
  if JS.is_char 38 m then Some "&amp;"
  else if JS.is_char 60 m then Some "&lt;"
  else if JS.is_char 62 m then Some "&gt;"
  else if JS.is_char 34 m then Some "&quot;"
  else if JS.is_char 39 m then Some "&#039;"
  else None.

Definition escapeHtml (text : string) : string :=
  JS.replace_each is_html_special
    (fun m => default "undefined" (html_entity m)) text.

(* ===================================================================== *)
(** ** Exceptions *)
(* ===================================================================== *)

Inductive Exn : Type :=
| NetworkFailure            (* [fetch] rejects: no route, timeout, bad URL *)
| HttpStatus (status : nat) (* [throw new Error(`HTTP ${response.status}`)] *)
| BodyFailure               (* [response.text()] rejects *)
| InvalidURL                (* [new URL(url)] throws a TypeError *)
| FileMissing (path : string)
| Refused (path : string).  (* the operating system refuses the call at [path] *)

Inductive Result (A : Type) : Type :=
| Returned (a : A)
| Threw (e : Exn).

Arguments Returned {A} a.
Arguments Threw {A} e.

Definition bind {A B : Type} (c : Result A) (k : A -> Result B) : Result B :=
  match c with
  | Returned a => k a
  | Threw e => Threw e
  end.

Notation "'do' x <- c ; k" := (bind c (fun x => k))
  (at level 10, x name, c at level 100, k at level 200, only parsing).

(** [try { body } catch (error) { handler }]. *)
Definition try_catch {A : Type} (body : Result A) (handler : Exn -> Result A)
  : Result A :=
  match body with
  | Returned a => Returned a
  | Threw e => handler e
  end.

(* ===================================================================== *)
(** ** What the platform hands to the script *)
(* ===================================================================== *)

(** The three properties of a [URL] object that the script reads. *)
Record URLobj : Type := {
  protocol : string;
  hostname : string;
  origin : string
}.

(** One [<img>] element, as the attributes [findFirstImage] reads. *)
Record Img : Type := {
  img_src : option string;
  img_data_src : option string;
  img_width : option string;
  img_height : option string
}.

(** A loaded document, as the answers to the selectors of [scrapeMetadata]:
    each [attr('content')] is [None] when the element or the attribute is
    absent, [$('title').text()] is always a string. *)
Record Page : Type := {
  og_title : option string;
  twitter_title : option string;
  title_text : string;
  og_description : option string;
  twitter_description : option string;
  meta_description : option string;
  og_image : option string;
  twitter_image : option string;
  imgs : list Img
}.

(** What one [fetch(url)] does: reject, or resolve to a response with its
    [ok] flag and status, whose [text()] gives a document or rejects. *)
Inductive FetchOutcome : Type :=
| Rejected
| Response (ok : bool) (status : nat) (body : option Page).

Record LinkMetadata : Type := {
  url : string;
  title : string;
  description : string;
  image : string;
  success : bool
}.

Record Collection : Type := {
  name : string;
  slug : string;
  links : list string;
  metadata : list LinkMetadata   (* [[]] until the fetch pass attaches it *)
}.

Inductive Variant : Type := VariantA | VariantB.

(* ===================================================================== *)
(** ** [parseInt] and [encodeURIComponent] *)
(* ===================================================================== *)

Definition digit_value (radix : Z) (c : ascii) : option Z :=
  let n := Z.of_N (JS.code c) in
  let v := if JS.is_digit c then Some (n - 48)%Z
           else if JS.is_lower c then Some (n - 87)%Z
           else if JS.is_upper c then Some (n - 55)%Z
           else None in
  match v with
  | Some d => if (d <? radix)%Z then Some d else None
  | None => None
  end.

(** The longest prefix of digits, as a number; [acc] is [None] while no
    digit has been read. *)
Fixpoint read_digits (radix : Z) (acc : option Z) (s : string) : option Z :=
  match s with
  | EmptyString => acc
  | String c s' =>
      match digit_value radix c with
      | Some d => read_digits radix (Some (radix * default 0%Z acc + d)%Z) s'
      | None => acc
      end
  end.

(** [parseInt(s)] without a radix; [None] is [NaN].  The script compares the
    result with 0 and 100 only, which the rounding of large values to a
    double does not change, so the exact integer stands for the number. *)
Definition parseInt (s : string) : option Z :=
  let s := JS.trimStart s in
  let '(sign, s) :=
    match s with
    | String c s' =>
        if JS.is_char 45 c then ((-1)%Z, s')
        else if JS.is_char 43 c then (1%Z, s')
        else (1%Z, s)
    | EmptyString => (1%Z, s)
    end in
  let '(radix, s) :=
    if JS.startsWith "0x" s || JS.startsWith "0X" s
    then (16%Z, JS.drop 2 s) else (10%Z, s) in
  match read_digits radix None s with
  | Some n => Some (sign * n)%Z
  | None => None
  end.

(** [parseInt(img.attr(a)) || 0]: an absent attribute reads [undefined],
    which parses to [NaN]. *)
Definition parseInt_or_0 (a : option string) : Z :=
  match a with
  | Some s => default 0%Z (parseInt s)
  | None => 0%Z
  end.

Definition hex_digit (n : N) : ascii :=
  if (n <? 10)%N then ascii_of_N (48 + n) else ascii_of_N (55 + n).

Definition percent (byte : N) : string :=
  String "%" (String (hex_digit (N.shiftr byte 4))
                (String (hex_digit (N.land byte 15)) EmptyString)).

(** The characters [encodeURIComponent] leaves alone:
    [A-Z a-z 0-9 - _ . ! ~ * ' ( )]. *)
Definition uri_unreserved (c : ascii) : bool :=
  JS.is_upper c || JS.is_lower c || JS.is_digit c
  || JS.is_char 45 c || JS.is_char 95 c || JS.is_char 46 c || JS.is_char 33 c
  || JS.is_char 126 c || JS.is_char 42 c || JS.is_char 39 c
  || JS.is_char 40 c || JS.is_char 41 c.

(** Any other code unit is written as the percent-escaped bytes of its UTF-8
    form: one byte below U+0080, two bytes from U+0080 to U+00FF. *)
Definition encode_unit (c : ascii) : string :=
  let n := JS.code c in
  if uri_unreserved c then String c EmptyString
  else if (n <? 128)%N then percent n
  else percent (N.lor 192 (N.shiftr n 6)) ++ percent (N.lor 128 (N.land n 63)).

Fixpoint encodeURIComponent (s : string) : string :=
  match s with
  | EmptyString => EmptyString
  | String c s' => encode_unit c ++ encodeURIComponent s'
  end.

(* ===================================================================== *)
(** ** The metadata fetcher *)
(* ===================================================================== *)

Section Fetcher.

(** The WHATWG parser behind [new URL(url)]: [None] when it throws. *)
Variable parse_url : string -> option URLobj.

Definition new_URL (url : string) : Result URLobj :=
  match parse_url url with
  | Some u => Returned u
  | None => Threw InvalidURL
  end.

Definition genericPhrases : list string :=
  [ "enjoy the videos and music you love";
    "share it all with friends";
    "youtube";
    "upload original content";
    "share videos with friends, family, and the world" ].

Definition isGenericDescription (description url : string) : bool :=
  if negb (JS.truthy description) then true
  else
    let lowerDesc := JS.toLowerCase description in
    if JS.includes "youtube.com" url
       && existsb (fun phrase => JS.includes phrase lowerDesc) genericPhrases
    then true
    else if (String.length description <? 10)%nat then true
    else false.

(** The size test of [findFirstImage]: both dimensions given and positive,
    one of them under 100. *)
Definition tiny (img : Img) : bool :=
  let width := parseInt_or_0 (img_width img) in
  let height := parseInt_or_0 (img_height img) in
  (0 <? width)%Z && (0 <? height)%Z
  && ((width <? 100)%Z || (height <? 100)%Z).

Definition icon_like (src : string) : bool :=
  JS.includes "icon" src || JS.includes "logo" src || JS.includes "avatar" src.

(** The loop of [findFirstImage]; [None] is its final [return null]. *)
Fixpoint scan_images (urlObj : URLobj) (images : list Img) : option string :=
  match images with
  | [] => None
  | img :: rest =>
      match JS.or_else (img_src img) (img_data_src img) with
      | None => scan_images urlObj rest
      | Some src =>
          if negb (JS.truthy src) then scan_images urlObj rest
          else if tiny img then scan_images urlObj rest
          else if icon_like src then scan_images urlObj rest
          else
            let src :=
              if JS.startsWith "//" src then "https:" ++ src
              else if JS.startsWith "/" src then origin urlObj ++ src
              else if negb (JS.startsWith "http" src)
                   then origin urlObj ++ "/" ++ src
                   else src in
            let src :=
              if JS.startsWith "http://" src
              then JS.replace "http://" "https://" src
              else src in
            Some src
      end
  end.

Definition findFirstImage (page : Page) (url : string)
  : Result (option string) :=
  do urlObj <- new_URL url;
  Returned (scan_images urlObj (imgs page)).

(** [fetch], the [ok] test and [response.text()]. *)
Definition load (net : FetchOutcome) : Result Page :=
  match net with
  | Rejected => Threw NetworkFailure
  | Response ok status body =>
      if negb ok then Threw (HttpStatus status)
      else match body with
           | Some page => Returned page
           | None => Threw BodyFailure
           end
  end.

(** The title chain; the hostname is computed only when the three
    candidates before it are falsy. *)
Definition extract_title (page : Page) (url : string) : Result string :=
  let candidate :=
    JS.or_else (JS.or_else (og_title page) (twitter_title page))
               (Some (title_text page)) in
  match candidate with
  | Some t =>
      if JS.truthy t then Returned t
      else do u <- new_URL url; Returned (hostname u)
  | None => do u <- new_URL url; Returned (hostname u)
  end.

Definition extract_description (page : Page) : string :=
  JS.or_string
    (JS.or_else (JS.or_else (og_description page) (twitter_description page))
                (meta_description page))
    EmptyString.

Definition extract_image (page : Page) : string :=
  JS.or_string (JS.or_else (og_image page) (twitter_image page)) EmptyString.

(** [description.substring(0, 200) + '...']. *)
Definition truncate (description : string) : string :=
  JS.substring0 200 description ++ "...".

Definition placeholder (hostname : string) : string :=
  "https://via.placeholder.com/400x200/f5f5f5/666666?text="
  ++ encodeURIComponent hostname.

(** *** Variant A *)

(** Lines 169-184: make the image reference absolute, then force https.
    [None] is the [null] that [findFirstImage] may have returned. *)
Definition normalize_imageA (url : string) (image : option string)
  : Result (option string) :=
  do image <-
    match image with
    | Some i =>
        if JS.truthy i && negb (JS.startsWith "http" i)
        then
          do urlObj <- new_URL url;
          Returned (Some (if JS.startsWith "//" i then "https:" ++ i
                          else if JS.startsWith "/" i then origin urlObj ++ i
                          else origin urlObj ++ "/" ++ i))
        else Returned image
    | None => Returned None
    end;
  Returned
    match image with
    | Some i =>
        if JS.truthy i && JS.startsWith "http://" i
        then Some (JS.replace "http://" "https://" i)
        else image
    | None => None
    end.

(** The [try] block. *)
Definition try_blockA (url : string) (net : FetchOutcome)
  : Result LinkMetadata :=
  do page <- load net;
  do title <- extract_title page url;
  let description := extract_description page in
  let image := extract_image page in
  do image <-
    (if negb (JS.truthy image) then findFirstImage page url
     else Returned (Some image));
  do image <- normalize_imageA url image;
  do image <-
    (if negb (JS.truthy_opt image)
     then
       do u <- new_URL url;
       let hostname := JS.replace "www." EmptyString (hostname u) in
       Returned (placeholder hostname)
     else Returned (default EmptyString image));
  let description :=
    if isGenericDescription description url then EmptyString
    else description in
  let description :=
    if JS.truthy description && (200 <? String.length description)%nat
    then truncate description else description in
  Returned {| url := url;
              title := JS.trim title;
              description := JS.trim description;
              image := image;
              success := true |}.

(** The [catch] block. *)
Definition catch_blockA (url : string) (error : Exn) : Result LinkMetadata :=
  do u <- new_URL url;
  let hostname := JS.replace "www." EmptyString (hostname u) in
  Returned {| url := url;
              title := hostname;
              description := EmptyString;
              image := placeholder hostname;
              success := false |}.

Definition scrapeMetadataA (url : string) (net : FetchOutcome)
  : Result LinkMetadata :=
  try_catch (try_blockA url net) (catch_blockA url).

(** *** Variant B *)

(** Lines 449-459: make the image reference absolute. *)
Definition normalize_imageB (url : string) (image : string) : Result string :=
  if JS.truthy image && negb (JS.startsWith "http" image)
  then
    do urlObj <- new_URL url;
    Returned (if JS.startsWith "//" image then protocol urlObj ++ image
              else if JS.startsWith "/" image then origin urlObj ++ image
              else origin urlObj ++ "/" ++ image)
  else Returned image.

Definition try_blockB (url : string) (net : FetchOutcome)
  : Result LinkMetadata :=
  do page <- load net;
  do title <- extract_title page url;
  let description := extract_description page in
  let image := extract_image page in
  do image <- normalize_imageB url image;
  let description :=
    if (200 <? String.length description)%nat
    then truncate description else description in
  Returned {| url := url;
              title := JS.trim title;
              description := JS.trim description;
              image := image;
              success := true |}.

Definition catch_blockB (url : string) (error : Exn) : Result LinkMetadata :=
  do u <- new_URL url;
  Returned {| url := url;
              title := hostname u;
              description := EmptyString;
              image := EmptyString;
              success := false |}.

Definition scrapeMetadataB (url : string) (net : FetchOutcome)
  : Result LinkMetadata :=
  try_catch (try_blockB url net) (catch_blockB url).

Definition try_block (v : Variant) : string -> FetchOutcome -> Result LinkMetadata :=
  match v with
  | VariantA => try_blockA
  | VariantB => try_blockB
  end.

Definition scrapeMetadata (v : Variant) : string -> FetchOutcome -> Result LinkMetadata :=
  match v with
  | VariantA => scrapeMetadataA
  | VariantB => scrapeMetadataB
  end.

End Fetcher.

(* ===================================================================== *)
(** ** The page renderer *)
(* ===================================================================== *)

Definition nl : string := String (ascii_of_N 10) EmptyString.

(** A double-quoted attribute value. *)
Definition q (s : string) : string := dq ++ s ++ dq.

(** The lines of a template literal, and [.join('')]. *)
Definition lines (ls : list string) : string := String.concat nl ls.
Definition join (ls : list string) : string := String.concat EmptyString ls.

Definition home_entry (col : Collection) : string :=
  lines
    [ EmptyString;
      "        <a href=" ++ q (slug col ++ ".html") ++ " class="
        ++ q "collection-link" ++ ">";
      "          <h2>" ++ name col ++ "</h2>";
      "          <span class=" ++ q "link-count" ++ ">"
        ++ pretty (length (links col)) ++ " resources</span>";
      "        </a>";
      "      " ].

Definition generateHomePage (collections : list Collection) : string :=
  lines
    [ "<!DOCTYPE html>";
      "<html lang=" ++ q "en" ++ ">";
      "<head>";
      "  <meta charset=" ++ q "UTF-8" ++ ">";
      "  <meta name=" ++ q "viewport" ++ " content="
        ++ q "width=device-width, initial-scale=1.0" ++ ">";
      "  <title>Resource Collections</title>";
      "  <link rel=" ++ q "stylesheet" ++ " href=" ++ q "style.css" ++ ">";
      "</head>";
      "<body>";
      "  <div class=" ++ q "container" ++ ">";
      "    <header>";
      "      <h1>Resource Collections</h1>";
      "    </header>";
      "    ";
      "    <div class=" ++ q "collections-list" ++ ">";
      "      " ++ join (map home_entry collections);
      "    </div>";
      "  </div>";
      "</body>";
      "</html>" ].

(** The frame of a collection page, shared by the two variants but for the
    arrow of the back link, which lies outside the range of the model and
    stands as the bytes the source file holds for it. *)
Definition collection_frame (arrow : string) (collection : Collection)
  (cards : string) : string :=
  lines
    [ "<!DOCTYPE html>";
      "<html lang=" ++ q "en" ++ ">";
      "<head>";
      "  <meta charset=" ++ q "UTF-8" ++ ">";
      "  <meta name=" ++ q "viewport" ++ " content="
        ++ q "width=device-width, initial-scale=1.0" ++ ">";
      "  <title>" ++ name collection ++ "</title>";
      "  <link rel=" ++ q "stylesheet" ++ " href=" ++ q "style.css" ++ ">";
      "</head>";
      "<body>";
      "  <div class=" ++ q "container" ++ ">";
      "    <header>";
      "      <a href=" ++ q "index.html" ++ " class=" ++ q "back-link" ++ ">"
        ++ arrow ++ " Back to Collections</a>";
      "      <h1>" ++ name collection ++ "</h1>";
      "    </header>";
      "    ";
      "    <div class=" ++ q "cards-grid" ++ ">";
      "      " ++ cards;
      "    </div>";
      "  </div>";
      "</body>";
      "</html>" ].

Definition bytes (l : list N) : string :=
  fold_right (fun n s => String (ascii_of_N n) s) EmptyString l.

Definition arrowA : string := bytes [226; 134; 144]%N.
Definition arrowB : string := bytes [226; 128; 154; 195; 156; 195; 170]%N.

(** [s.replace(/^https?:\/\/(www\.)?/, '')]. *)
Definition strip_scheme_www (s : string) : string :=
  let rest :=
    if JS.startsWith "https://" s then Some (JS.drop 8 s)
    else if JS.startsWith "http://" s then Some (JS.drop 7 s)
    else None in
  match rest with
  | Some r => if JS.startsWith "www." r then JS.drop 4 r else r
  | None => s
  end.

Definition card_open (meta : LinkMetadata) : string :=
  "    <a href=" ++ q (url meta) ++ " target=" ++ q "_blank" ++ " rel="
  ++ q "noopener noreferrer" ++ " class=" ++ q "card" ++ ">".

Definition card_image (meta : LinkMetadata) : string :=
  "<div class=" ++ q "card-image" ++ " style="
  ++ q ("background-image: url('" ++ image meta ++ "')") ++ "></div>".

Definition card_title (meta : LinkMetadata) : string :=
  "        <h3 class=" ++ q "card-title" ++ ">" ++ escapeHtml (title meta)
  ++ "</h3>".

Definition cardA (meta : LinkMetadata) : string :=
  let isYouTube :=
    JS.includes "youtube.com" (url meta) || JS.includes "youtu.be" (url meta) in
  let displayUrl := JS.remove_final_slash (strip_scheme_www (url meta)) in
  lines
    [ EmptyString;
      card_open meta;
      "      " ++ card_image meta;
      "      <div class=" ++ q "card-content" ++ ">";
      card_title meta;
      "        "
        ++ (if negb isYouTube
            then "<p class=" ++ q "card-url" ++ ">" ++ escapeHtml displayUrl
                 ++ "</p>"
            else EmptyString);
      "      </div>";
      "    </a>";
      "  " ].

Definition cardB (meta : LinkMetadata) : string :=
  lines
    [ EmptyString;
      card_open meta;
      "      "
        ++ (if JS.truthy (image meta) then card_image meta
            else "<div class=" ++ q "card-image card-no-image" ++ "></div>");
      "      <div class=" ++ q "card-content" ++ ">";
      card_title meta;
      "        "
        ++ (if JS.truthy (description meta)
            then "<p class=" ++ q "card-description" ++ ">"
                 ++ escapeHtml (description meta) ++ "</p>"
            else EmptyString);
      "      </div>";
      "    </a>";
      "  " ].

Definition generateCollectionPage (v : Variant) (collection : Collection)
  (allMetadata : list LinkMetadata) : string :=
  match v with
  | VariantA => collection_frame arrowA collection (join (map cardA allMetadata))
  | VariantB => collection_frame arrowB collection (join (map cardB allMetadata))
  end.

(* ===================================================================== *)
(** ** The link-list parser *)
(* ===================================================================== *)

(** The state of the loop of [parseLinksFile]: [collections] and
    [currentCollection]. *)
Definition ParseState : Type := (list Collection * option Collection)%type.

Definition flush (st : ParseState) : list Collection :=
  match st.2 with
  | Some c => st.1 ++ [c]
  | None => st.1
  end.

Definition add_link (c : Collection) (link : string) : Collection :=
  {| name := name c; slug := slug c; links := links c ++ [link];
     metadata := metadata c |}.

Definition parse_line (st : ParseState) (line : string) : ParseState :=
  let trimmed := JS.trim line in
  if JS.startsWith "# " trimmed then
    let name := JS.trim (JS.drop 2 trimmed) in
    (flush st,
     Some {| name := name; slug := slugify name; links := []; metadata := [] |})
  else if JS.startsWith "http://" trimmed || JS.startsWith "https://" trimmed
  then
    match st.2 with
    | Some c => (st.1, Some (add_link c trimmed))
    | None => st
    end
  else st.

Definition parseLinks (content : string) : list Collection :=
  flush (fold_left parse_line (JS.split_lines content) ([], None)).

(* ===================================================================== *)
(** ** The orchestrator *)
(* ===================================================================== *)

(** The file system: file contents by path, and the directories.  A write
    into an existing directory is taken to succeed. *)
Record FileSystem : Type := {
  files : gmap string string;
  dirs : gset string
}.

Definition writeFileSync (path data : string) (fs : FileSystem) : FileSystem :=
  {| files := <[path := data]> (files fs); dirs := dirs fs |}.

Definition existsSync (path : string) (fs : FileSystem) : bool :=
  bool_decide (is_Some (files fs !! path)) || bool_decide (path ∈ dirs fs).

Definition mkdirSync (path : string) (fs : FileSystem) : FileSystem :=
  {| files := files fs; dirs := {[path]} ∪ dirs fs |}.

Definition readFileSync (path : string) (fs : FileSystem) : Result string :=
  match files fs !! path with
  | Some content => Returned content
  | None => Threw (FileMissing path)
  end.

Definition copyFileSync (src dest : string) (fs : FileSystem)
  : Result FileSystem :=
  do content <- readFileSync src fs;
  Returned (writeFileSync dest content fs).

Definition parseLinksFile (filePath : string) (fs : FileSystem)
  : Result (list Collection) :=
  do content <- readFileSync filePath fs;
  Returned (parseLinks content).

Definition attach (c : Collection) (metadata : list LinkMetadata) : Collection :=
  {| name := name c; slug := slug c; links := links c; metadata := metadata |}.

Definition page_path (c : Collection) : string := "dist/" ++ slug c ++ ".html".

Section Orchestrator.

Variable parse_url : string -> option URLobj.
Variable v : Variant.

(** The network: what the [n]-th fetch of the run, for [url], does. *)
Variable net : nat -> string -> FetchOutcome.

(** The inner loop of the fetch pass.  [n] counts the fetches made so far;
    the result lists the records in the order of the pushes. *)
Fixpoint scrape_links (n : nat) (urls : list string)
  : Result (list LinkMetadata * nat) :=
  match urls with
  | [] => Returned ([], n)
  | url :: rest =>
      do meta <- scrapeMetadata parse_url v url (net n url);
      do r <- scrape_links (S n) rest;
      Returned (meta :: r.1, r.2)
  end.

(** The outer loop: each collection gets its [metadata]. *)
Fixpoint fetch_pass (n : nat) (collections : list Collection)
  : Result (list Collection * nat) :=
  match collections with
  | [] => Returned ([], n)
  | collection :: rest =>
      do m <- scrape_links n (links collection);
      do r <- fetch_pass m.2 rest;
      Returned (attach collection m.1 :: r.1, r.2)
  end.

(** The loop that writes one page per collection. *)
Definition write_pages (collections : list Collection) (fs : FileSystem)
  : FileSystem :=
  fold_left
    (fun fs collection =>
       writeFileSync (page_path collection)
         (generateCollectionPage v collection (metadata collection)) fs)
    collections fs.

Definition build (fs : FileSystem) : Result FileSystem :=
  do collections <- parseLinksFile "links.md" fs;
  do fetched <- fetch_pass 0 collections;
  let collections := fetched.1 in
  let fs := if negb (existsSync "dist" fs) then mkdirSync "dist" fs else fs in
  let fs := writeFileSync "dist/index.html" (generateHomePage collections) fs in
  let fs := write_pages collections fs in
  copyFileSync "src/style.css" "dist/style.css" fs.

End Orchestrator.

(* ===================================================================== *)
(** ** The orchestrator as a run over the file system *)
(* ===================================================================== *)

(** [build] above tells what a run leaves when every call of [fs] goes
    through and the run comes to its end.  The run below keeps the file
    system at every step, so that it also tells what a run that throws has
    already written, and lets the operating system refuse a call: a read of
    a file that cannot be read, a write or [mkdir] where the directory is a
    regular file or not writable, the name too long or the disk full. *)
Section OrchestratorRun.

Variable parse_url : string -> option URLobj.
Variable v : Variant.
Variable net : nat -> string -> FetchOutcome.

(** Whether the operating system refuses a call at [path] in the state
    [fs]. *)
Variable refuses : FileSystem -> string -> bool.

(** A computation that may throw and that changes the file system. *)
Definition Run (A : Type) : Type := FileSystem -> Result A * FileSystem.

Definition run_ret {A : Type} (a : A) : Run A := fun fs => (Returned a, fs).

Definition run_bind {A B : Type} (c : Run A) (k : A -> Run B) : Run B :=
  fun fs =>
    match c fs with
    | (Returned a, fs') => k a fs'
    | (Threw e, fs') => (Threw e, fs')
    end.

(** A step that does not touch the file system. *)
Definition run_pure {A : Type} (c : Result A) : Run A := fun fs => (c, fs).

Definition run_read (path : string) : Run string :=
  fun fs =>
    if refuses fs path then (Threw (Refused path), fs)
    else (readFileSync path fs, fs).

Definition run_write (path data : string) : Run unit :=
  fun fs =>
    if refuses fs path then (Threw (Refused path), fs)
    else (Returned tt, writeFileSync path data fs).

Definition run_mkdir (path : string) : Run unit :=
  fun fs =>
    if refuses fs path then (Threw (Refused path), fs)
    else (Returned tt, mkdirSync path fs).

Definition run_exists (path : string) : Run bool :=
  fun fs => (Returned (existsSync path fs), fs).

Definition run_copy (src dest : string) : Run unit :=
  run_bind (run_read src) (fun content => run_write dest content).

(** The loop that writes one page per collection. *)
Fixpoint run_write_pages (collections : list Collection) : Run unit :=
  match collections with
  | [] => run_ret tt
  | collection :: rest =>
      run_bind
        (run_write (page_path collection)
           (generateCollectionPage v collection (metadata collection)))
        (fun _ => run_write_pages rest)
  end.

Definition build_run : Run unit :=
  run_bind (run_read "links.md") (fun content =>
  run_bind (run_pure (fetch_pass parse_url v net 0 (parseLinks content)))
    (fun fetched =>
  let collections := fetched.1 in
  run_bind (run_exists "dist") (fun present =>
  run_bind (if negb present then run_mkdir "dist" else run_ret tt) (fun _ =>
  run_bind (run_write "dist/index.html" (generateHomePage collections))
    (fun _ =>
  run_bind (run_write_pages collections) (fun _ =>
  run_copy "src/style.css" "dist/style.css")))))).

End OrchestratorRun.

(* ===================================================================== *)
(** ** A fragment of the WHATWG URL parser, for the concrete runs *)
(* ===================================================================== *)

(** The theorems below hold for every parser.  The concrete runs need one:
    this one covers strings that start with [http://] or [https://] in lower
    case (the only ones the link parser lets through), followed by a host
    name and an optional port, then the end or a path, query or fragment.
    Outside the fragment are: user info, IP literals, percent escapes, hosts
    outside ASCII, hosts whose last label is a number, labels that start
    with [xn--], and strings that hold a tab, a line feed or a carriage
    return.  As in the WHATWG parser, further slashes after the scheme are
    skipped, and an empty host and a host holding a forbidden code point (a
    space, for one) make the constructor throw. *)
Module WHATWG.

Definition ends_authority (c : ascii) : bool :=
  JS.is_char 47 c || JS.is_char 63 c || JS.is_char 35 c || JS.is_char 92 c.

Fixpoint take_until (p : ascii -> bool) (s : string) : string :=
  match s with
  | EmptyString => EmptyString
  | String c s' => if p c then EmptyString else String c (take_until p s')
  end.

Fixpoint drop_until (p : ascii -> bool) (s : string) : string :=
  match s with
  | EmptyString => EmptyString
  | String c s' => if p c then s else drop_until p s'
  end.

Definition is_slash (c : ascii) : bool := JS.is_char 47 c || JS.is_char 92 c.

(** Letters, digits, hyphen, dot, underscore: host characters that are
    neither forbidden nor in need of an encoding. *)
Definition host_char (c : ascii) : bool :=
  JS.is_upper c || JS.is_lower c || JS.is_digit c
  || JS.is_char 45 c || JS.is_char 46 c || JS.is_char 95 c.

Fixpoint decimal (acc : N) (s : string) : N :=
  match s with
  | EmptyString => acc
  | String c s' => decimal (10 * acc + (JS.code c - 48)) s'
  end.

Definition default_port (protocol : string) : N :=
  if String.eqb protocol "https:" then 443%N else 80%N.

Definition parse (s : string) : option URLobj :=
  let scheme :=
    if JS.startsWith "https://" s then Some ("https:", JS.drop 8 s)
    else if JS.startsWith "http://" s then Some ("http:", JS.drop 7 s)
    else None in
  match scheme with
  | None => None
  | Some (protocol, rest) =>
      let rest := drop_until (fun c => negb (is_slash c)) rest in
      let authority := take_until ends_authority rest in
      let host := JS.toLowerCase (take_until (JS.is_char 58) authority) in
      let port := JS.drop 1 (drop_until (JS.is_char 58) authority) in
      if String.eqb host EmptyString || negb (JS.all_chars host_char host)
         || negb (JS.all_chars JS.is_digit port)
         || (65535 <? decimal 0 port)%N
      then None
      else
        let shown_port :=
          if String.eqb port EmptyString
             || (decimal 0 port =? default_port protocol)%N
          then EmptyString
          else ":" ++ pretty (decimal 0 port) in
        Some {| protocol := protocol;
                hostname := host;
                origin := protocol ++ "//" ++ host ++ shown_port |}
  end.

End WHATWG.

(* ===================================================================== *)
(** ** The vocabulary of the properties *)
(* ===================================================================== *)

(** A lowercase word character or a hyphen: [a-z], [0-9], [_], [-]. *)
Definition slug_char (c : ascii) : bool :=
  JS.is_lower c || JS.is_digit c || JS.is_char 95 c || JS.is_hyphen c.

(** No two hyphens in a row; [prev] tells that a hyphen came just before. *)
Fixpoint no_hyphen_pair (prev : bool) (s : string) : bool :=
  match s with
  | EmptyString => true
  | String c s' =>
      if JS.is_hyphen c then negb prev && no_hyphen_pair true s'
      else no_hyphen_pair false s'
  end.

Definition leading_hyphen (s : string) : bool := JS.startsWith "-" s.

Definition trailing_hyphen (s : string) : bool :=
  match JS.last_char s with
  | Some c => JS.is_hyphen c
  | None => false
  end.

(** The characters that open or close a tag or an attribute value. *)
Definition markup_char (c : ascii) : bool :=
  JS.is_char 60 c || JS.is_char 62 c || JS.is_char 34 c || JS.is_char 39 c.

Definition entities : list string :=
  [ "&amp;"; "&lt;"; "&gt;"; "&quot;"; "&#039;" ].

(** Wherever [s] has an ampersand, one of the five entities starts there. *)
Fixpoint amp_starts_entity (s : string) : bool :=
  match s with
  | EmptyString => true
  | String c s' =>
      (if JS.is_char 38 c then existsb (fun e => JS.startsWith e s) entities
       else true)
      && amp_starts_entity s'
  end.

(** A leading [http://] becomes [https://]. *)
Definition force_https (s : string) : string :=
  if JS.startsWith "http://" s then "https://" ++ JS.drop 7 s else s.

Fixpoint str_repeat (n : nat) (s : string) : string :=
  match n with
  | O => EmptyString
  | S n' => s ++ str_repeat n' s
  end.

(** The absolute form of an image reference, stated once for the two
    variants: a reference that starts with [http] stands as it is, a
    protocol-relative one gets [scheme] in front, a root-relative one the
    origin of the page, any other the origin and a slash. *)
Definition absolute_ref (scheme : string) (u : URLobj) (ref : string) : string :=
  if JS.startsWith "http" ref then ref
  else if JS.startsWith "//" ref then scheme ++ ref
  else if JS.startsWith "/" ref then origin u ++ ref
  else origin u ++ "/" ++ ref.

Definition first_char_not_space (s : string) : bool :=
  match s with
  | EmptyString => false
  | String c _ => negb (JS.is_space c)
  end.

(** The string before the final [trim] of [slugify]. *)
Definition slug_body (text : string) : string :=
  text |> JS.toLowerCase |> JS.remove_all not_slug_source
       |> JS.replace_runs JS.is_space "-" false
       |> JS.replace_runs JS.is_hyphen "-" false.

(** What [escapeHtml] writes for one character. *)
Definition escaped_char (c : ascii) : string :=
  if is_html_special c then default "undefined" (html_entity c)
  else String c EmptyString.

(** After the fetch pass a collection is the one it was, with one record per
    link, in the order of the links. *)
Definition fetched_from (before after : Collection) : Prop :=
  name after = name before /\ slug after = slug before
  /\ links after = links before
  /\ length (metadata after) = length (links after)
  /\ map url (metadata after) = links after.

Definition all_links_parse (parse_url : string -> option URLobj)
  (collections : list Collection) : Prop :=
  Forall (fun c => Forall (fun l => is_Some (parse_url l)) (links c)) collections.

(* ===================================================================== *)
(** ** Concrete inputs *)
(* ===================================================================== *)

(** A document with a [<title>], a [meta name=description] and an
    [og:image], each optional, and nothing else the script looks at. *)
Definition sample_page (t : string) (d i : option string) : Page :=
  {| og_title := None; twitter_title := None; title_text := t;
     og_description := None; twitter_description := None;
     meta_description := d; og_image := i; twitter_image := None;
     imgs := [] |}.

Definition ok_response (page : Page) : FetchOutcome :=
  Response true 200 (Some page).

(** A page whose only title is a blank [<title> </title>]. *)
Definition blank_title_page : Page := sample_page " " None None.

(** A description of 201 characters that starts with a space. *)
Definition padded_description : string := " " ++ str_repeat 200 "a".

Definition padded_page : Page :=
  sample_page "Title" (Some padded_description) None.

(** A page whose preview image is protocol-relative. *)
Definition cdn_page : Page :=
  sample_page "Title" None (Some "//cdn.example.com/a.png").

(** A page whose [og:image] closes the attribute and opens a tag. *)
Definition script_image : string :=
  "https://cdn.example.com/a.png')" ++ dq ++ "><script>alert(1)</script>".

Definition script_image_page : Page :=
  sample_page "Title" None (Some script_image).

Definition script_collection : Collection :=
  {| name := "<script>alert(1)</script>"; slug := slugify "<script>alert(1)</script>";
     links := []; metadata := [] |}.

Definition plain_collection : Collection :=
  {| name := "Tools"; slug := "tools"; links := ["https://example.com/"];
     metadata := [] |}.

(** A link file with two headings that differ by an exclamation mark, and a
    link that does not resolve. *)
Definition colliding_links : string :=
  lines [ "# Tools"; "https://example.com/"; "https://down.example.com/";
          "# Tools!"; "https://example.org/" ].

(** A network on which [down.example.com] is unreachable, a link that is
    not a URL cannot be fetched, and every other host answers with a titled
    page. *)
Definition sample_net (n : nat) (link : string) : FetchOutcome :=
  if JS.includes "down." link then Rejected
  else match WHATWG.parse link with
       | Some _ => ok_response (sample_page "Title" None None)
       | None => Rejected
       end.

Definition sample_fs (links_md : string) : FileSystem :=
  {| files := <["links.md" := links_md]> (<["src/style.css" := "body{}"]> ∅);
     dirs := {["src"]} |}.

Definition tools : Collection :=
  {| name := "Tools"; slug := slugify "Tools";
     links := ["https://example.com/"]; metadata := [] |}.

Definition tools_bang : Collection :=
  {| name := "Tools!"; slug := slugify "Tools!";
     links := ["https://example.org/"]; metadata := [] |}.

(** A record whose title is a script tag. *)
Definition script_title_record : LinkMetadata :=
  {| url := "https://example.com/"; title := "<script>alert(1)</script>";
     description := "<script>alert(1)</script>";
     image := "https://cdn.example.com/a.png"; success := true |}.

(* ===================================================================== *)
(** ** Further vocabulary: the parser, the image scan, the written files *)
(* ===================================================================== *)

(** The two kinds of line [parseLinksFile] reacts to. *)
Definition is_heading (line : string) : bool :=
  JS.startsWith "# " (JS.trim line).

Definition is_link (s : string) : bool :=
  JS.startsWith "http://" s || JS.startsWith "https://" s.

(** The link lines of a file, trimmed, in file order, from the first heading
    on; [opened] tells that a heading has been seen. *)
Fixpoint listed_links (opened : bool) (ls : list string) : list string :=
  match ls with
  | [] => []
  | l :: rest =>
      if is_heading l then listed_links true rest
      else if is_link (JS.trim l) && opened
           then JS.trim l :: listed_links opened rest
           else listed_links opened rest
  end.

(** What every collection that leaves the parser looks like. *)
Definition parsed_collection (c : Collection) : Prop :=
  slug c = slugify (name c)
  /\ JS.trim (name c) = name c
  /\ metadata c = []
  /\ Forall (fun l => JS.trim l = l /\ is_link l = true) (links c).

(** The invariant of the loop of the parser. *)
Definition parse_state_ok (st : ParseState) : Prop :=
  Forall parsed_collection st.1
  /\ match st.2 with Some c => parsed_collection c | None => True end.



(** The fetch resolved with an [ok] status and a readable body. *)
Definition answered (net : FetchOutcome) : bool :=
  match load net with
  | Returned _ => true
  | Threw _ => false
  end.

(** The last collection of a list that is written to [path]. *)
Definition last_written (path : string) (collections : list Collection)
  : option Collection :=
  last (List.filter (fun c => String.eqb (page_path c) path) collections).

Definition total_links (collections : list Collection) : nat :=
  length (concat (map links collections)).


(** The record of the [catch] block, for a link that parses to [u]. *)
Definition fallback_record (v : Variant) (link : string) (u : URLobj)
  : LinkMetadata :=
  match v with
  | VariantA =>
      {| url := link;
         title := JS.replace "www." EmptyString (hostname u);
         description := EmptyString;
         image := placeholder (JS.replace "www." EmptyString (hostname u));
         success := false |}
  | VariantB =>
      {| url := link; title := hostname u; description := EmptyString;
         image := EmptyString; success := false |}
  end.

(** A link file whose first link has a space in its host. *)
Definition rejected_link_file : string :=
  lines [ "# Tools"; "https://exa mple.com"; "https://example.com/" ].

(** An operating system that refuses nothing. *)
Definition nothing_refused (fs : FileSystem) (path : string) : bool := false.

(** A run keeps what lies outside [dist/]. *)
Definition outside_kept (fs fs' : FileSystem) : Prop :=
  forall p, JS.startsWith "dist/" p = false -> files fs' !! p = files fs !! p.

Definition keeps_outside {A : Type} (c : Run A) : Prop :=
  forall fs, outside_kept fs (c fs).2.

(** A link file whose second heading slugs to [index]. *)
Definition index_links : string :=
  lines [ "# Tools"; "https://example.com/"; "# Index"; "https://example.org/" ].

(** Facts about single characters, settled by running through the 256 of them. *)
Ltac each_char c :=
  destruct c as [[] [] [] [] [] [] [] []]; vm_compute; try reflexivity; try discriminate; auto.

(* ===================================================================== *)
(** ** Strings *)
(* ===================================================================== *)

Lemma lower_char_not_upper c : JS.is_upper (JS.lower_char c) = false.
Proof. each_char c. Qed.

Lemma slug_char_lower_fixed c : slug_char c = true -> JS.lower_char c = c.
Proof. each_char c. Qed.

Lemma slug_char_kept c : slug_char c = true -> not_slug_source c = false.
Proof. each_char c. Qed.

Lemma slug_char_not_space c : slug_char c = true -> JS.is_space c = false.
Proof. each_char c. Qed.

Lemma kept_lower_is_slug_or_space c :
  JS.is_upper c = false -> not_slug_source c = false ->
  JS.is_space c = false -> slug_char c = true.
Proof. each_char c. Qed.

Lemma all_chars_app (p : ascii -> bool) s t :
  JS.all_chars p (s ++ t) = JS.all_chars p s && JS.all_chars p t.
Proof. induction s as [|c s IH]; simpl; [done|]. by rewrite IH, andb_assoc. Qed.

Section StringLemmas.
Variables p q : ascii -> bool.

Lemma all_chars_impl s :
  (forall c, p c = true -> q c = true) ->
  JS.all_chars p s = true -> JS.all_chars q s = true.
Proof.
  intros Hpq. induction s as [|c s IH]; simpl; [done|].
  intros [Hc Hs]%andb_prop. rewrite (Hpq c Hc). auto.
Qed.

Lemma all_chars_smap f s :
  (forall c, p (f c) = true) -> JS.all_chars p (JS.smap f s) = true.
Proof. intros H. induction s as [|c s IH]; simpl; [done|]. by rewrite H. Qed.

Lemma smap_fixed f s :
  (forall c, p c = true -> f c = c) ->
  JS.all_chars p s = true -> JS.smap f s = s.
Proof.
  intros H. induction s as [|c s IH]; simpl; [done|].
  intros [Hc Hs]%andb_prop. by rewrite (H c Hc), IH.
Qed.

Lemma remove_all_fixed s :
  JS.all_chars (fun c => negb (p c)) s = true -> JS.remove_all p s = s.
Proof.
  induction s as [|c s IH]; simpl; [done|].
  intros [Hc Hs]%andb_prop. apply negb_true_iff in Hc. by rewrite Hc, IH.
Qed.

Lemma all_chars_remove_all s :
  JS.all_chars q s = true ->
  JS.all_chars (fun c => q c && negb (p c)) (JS.remove_all p s) = true.
Proof.
  induction s as [|c s IH]; simpl; [done|].
  intros [Hc Hs]%andb_prop. destruct (p c) eqn:E; simpl; [auto|].
  by rewrite Hc, E, IH.
Qed.

Lemma replace_runs_fixed r b s :
  JS.all_chars (fun c => negb (p c)) s = true -> JS.replace_runs p r b s = s.
Proof.
  revert b. induction s as [|c s IH]; simpl; [done|].
  intros b [Hc Hs]%andb_prop. apply negb_true_iff in Hc. by rewrite Hc, IH.
Qed.

Lemma all_chars_replace_runs r b s :
  JS.all_chars q r = true ->
  JS.all_chars (fun c => p c || q c) s = true ->
  JS.all_chars q (JS.replace_runs p r b s) = true.
Proof.
  intros Hr. revert b. induction s as [|c s IH]; simpl; [done|].
  intros b [Hc Hs]%andb_prop. destruct (p c) eqn:E.
  - destruct b; [by apply IH|]. rewrite all_chars_app, Hr. simpl. by apply IH.
  - simpl in Hc. simpl. rewrite Hc. simpl. by apply IH.
Qed.
End StringLemmas.

Lemma trim_fixed s :
  JS.all_chars (fun c => negb (JS.is_space c)) s = true -> JS.trim s = s.
Proof.
  unfold JS.trim. intros H.
  assert (Hs : JS.trimStart s = s).
  { destruct s as [|c s]; simpl in *; [done|].
    apply andb_prop in H as [Hc _]. apply negb_true_iff in Hc. by rewrite Hc. }
  rewrite Hs. clear Hs. induction s as [|c s IH]; simpl in *; [done|].
  apply andb_prop in H as [Hc Hs]. apply negb_true_iff in Hc.
  rewrite (IH Hs), Hc. by destruct s.
Qed.

Lemma no_hyphen_pair_replace_runs b s :
  no_hyphen_pair b (JS.replace_runs JS.is_hyphen "-" b s) = true.
Proof.
  revert b. induction s as [|c s IH]; intros b; simpl; [done|].
  destruct (JS.is_hyphen c) eqn:E.
  - destruct b; [apply IH|]. simpl. apply IH.
  - simpl. rewrite E. apply IH.
Qed.

Lemma replace_runs_hyphen_fixed b s :
  no_hyphen_pair b s = true -> JS.replace_runs JS.is_hyphen "-" b s = s.
Proof.
  revert b. induction s as [|c s IH]; intros b; simpl; [done|].
  destruct (JS.is_hyphen c) eqn:E.
  - intros [Hb Hs]%andb_prop. apply negb_true_iff in Hb. subst b.
    rewrite (IH _ Hs). simpl. f_equal.
    unfold JS.is_hyphen, JS.is_char, JS.code in E. apply N.eqb_eq in E.
    rewrite <- (ascii_N_embedding c), E. reflexivity.
  - intros Hs. by rewrite (IH _ Hs).
Qed.


Lemma slug_body_chars text : JS.all_chars slug_char (slug_body text) = true.
Proof.
  unfold slug_body.
  apply all_chars_replace_runs; [reflexivity|].
  apply all_chars_impl with (p := slug_char); [intros c ->; apply orb_true_r|].
  apply all_chars_replace_runs; [reflexivity|].
  eapply all_chars_impl;
    [| apply all_chars_remove_all with (q := fun c => negb (JS.is_upper c));
       apply all_chars_smap; intros c; by rewrite lower_char_not_upper].
  intros c [Hu Hk]%andb_prop. simpl in *.
  apply negb_true_iff in Hu, Hk.
  destruct (JS.is_space c) eqn:Es; [done|]. simpl.
  by apply kept_lower_is_slug_or_space.
Qed.

Lemma slug_chars_no_space s :
  JS.all_chars slug_char s = true ->
  JS.all_chars (fun c => negb (JS.is_space c)) s = true.
Proof.
  apply all_chars_impl. intros c H. by rewrite (slug_char_not_space c H).
Qed.

Lemma slugify_body text : slugify text = slug_body text.
Proof.
  unfold slugify. fold (slug_body text).
  apply trim_fixed, slug_chars_no_space, slug_body_chars.
Qed.

Lemma slugify_chars text : JS.all_chars slug_char (slugify text) = true.
Proof. rewrite slugify_body. apply slug_body_chars. Qed.

Lemma slugify_no_hyphen_pair text : no_hyphen_pair false (slugify text) = true.
Proof. rewrite slugify_body. apply no_hyphen_pair_replace_runs. Qed.

Lemma slugify_fixed s :
  JS.all_chars slug_char s = true -> no_hyphen_pair false s = true ->
  slugify s = s.
Proof.
  intros Hc Hp. rewrite slugify_body. unfold slug_body, JS.toLowerCase.
  rewrite (smap_fixed slug_char) by (auto using slug_char_lower_fixed).
  rewrite remove_all_fixed
    by (revert Hc; apply all_chars_impl; intros c H;
        by rewrite (slug_char_kept c H)).
  rewrite (replace_runs_fixed JS.is_space) by (by apply slug_chars_no_space).
  by apply replace_runs_hyphen_fixed.
Qed.

(** C8: [slugify] is idempotent: for every string [x],
    [slugify (slugify x)] is [slugify x]. *)
Theorem slugify_idempotent (x : string) : slugify (slugify x) = slugify x.
Proof. apply slugify_fixed; [apply slugify_chars | apply slugify_no_hyphen_pair]. Qed.

(** C6: [slugify] leaves a hyphen at an edge.  The final [trim] strips white
    space, and by then every run of white space is a hyphen: the name
    [a !] gets the slug [a-], the name [! a] the slug [-a], and the link
    parser hands such names over as they are. *)
Theorem slugify_keeps_edge_hyphens :
  slugify "a !" = "a-" /\ trailing_hyphen (slugify "a !") = true
  /\ slugify "! a" = "-a" /\ leading_hyphen (slugify "! a") = true
  /\ map slug (parseLinks "# a !") = ["a-"].
Proof. repeat split. Qed.

(* ===================================================================== *)
(** ** [escapeHtml] *)
(* ===================================================================== *)



Lemma escaped_char_no_markup c :
  JS.all_chars (fun c => negb (markup_char c)) (escaped_char c) = true.
Proof. destruct c as [[] [] [] [] [] [] [] []]; reflexivity. Qed.

Lemma escaped_char_amp c rest :
  amp_starts_entity rest = true ->
  amp_starts_entity (escaped_char c ++ rest) = true.
Proof.
  intros H. destruct c as [[] [] [] [] [] [] [] []]; vm_compute; exact H.
Qed.

Lemma escapeHtml_cons c s :
  escapeHtml (String c s) = escaped_char c ++ escapeHtml s.
Proof. reflexivity. Qed.

(** C10: for every string, the output of [escapeHtml] holds none of the
    characters that open or close a tag or an attribute value (less-than,
    greater-than, double quote, apostrophe), and wherever it holds an
    ampersand one of the five entities starts there. *)
Theorem escapeHtml_safe (text : string) :
  JS.all_chars (fun c => negb (markup_char c)) (escapeHtml text) = true
  /\ amp_starts_entity (escapeHtml text) = true.
Proof.
  induction text as [|c s [IH1 IH2]]; [done|].
  rewrite escapeHtml_cons. split.
  - by rewrite all_chars_app, escaped_char_no_markup, IH1.
  - by apply escaped_char_amp.
Qed.

Lemma html_entity_defined c : is_html_special c = true -> is_Some (html_entity c).
Proof. destruct c as [[] [] [] [] [] [] [] []]; vm_compute; (discriminate || eauto). Qed.

(* ===================================================================== *)
(** ** The fetcher: what it returns and when it throws *)
(* ===================================================================== *)

Lemma bind_returned {A B : Type} (c : Result A) (k : A -> Result B) (b : B) :
  bind c k = Returned b -> exists a, c = Returned a /\ k a = Returned b.
Proof. destruct c as [a|e]; simpl; [eauto | discriminate]. Qed.

Lemma try_catch_returned {A : Type} (body : Result A) h (a : A) :
  body = Returned a -> try_catch body h = Returned a.
Proof. by intros ->. Qed.

Lemma try_catch_threw {A : Type} (body : Result A) h e :
  body = Threw e -> try_catch body h = h e.
Proof. by intros ->. Qed.

Section FetcherFacts.

Variable parse_url : string -> option URLobj.

Lemma new_URL_some link u :
  parse_url link = Some u -> new_URL parse_url link = Returned u.
Proof. unfold new_URL. by intros ->. Qed.

Lemma new_URL_none link :
  parse_url link = None -> new_URL parse_url link = Threw InvalidURL.
Proof. unfold new_URL. by intros ->. Qed.

Lemma try_block_load_throws v link net e :
  load net = Threw e -> try_block parse_url v link net = Threw e.
Proof. intros H. destruct v; simpl; unfold try_blockA, try_blockB; by rewrite H. Qed.

(** The records the two [catch] blocks build. *)
Lemma catch_blockA_some link u e :
  parse_url link = Some u ->
  catch_blockA parse_url link e =
    Returned {| url := link;
                title := JS.replace "www." EmptyString (hostname u);
                description := EmptyString;
                image := placeholder (JS.replace "www." EmptyString (hostname u));
                success := false |}.
Proof. intros H. unfold catch_blockA. by rewrite (new_URL_some _ _ H). Qed.

Lemma catch_blockB_some link u e :
  parse_url link = Some u ->
  catch_blockB parse_url link e =
    Returned {| url := link; title := hostname u; description := EmptyString;
                image := EmptyString; success := false |}.
Proof. intros H. unfold catch_blockB. by rewrite (new_URL_some _ _ H). Qed.

Lemma scrapeMetadata_try_catch v link net :
  scrapeMetadata parse_url v link net =
    try_catch (try_block parse_url v link net)
      (match v with
       | VariantA => catch_blockA parse_url link
       | VariantB => catch_blockB parse_url link
       end).
Proof. by destruct v. Qed.

(** A failure inside the [try] block, on a link the URL parser accepts,
    comes back as the fallback record. *)
Lemma scrapeMetadata_fallback v link net u e :
  parse_url link = Some u ->
  try_block parse_url v link net = Threw e ->
  scrapeMetadata parse_url v link net =
    Returned
      match v with
      | VariantA =>
          {| url := link;
             title := JS.replace "www." EmptyString (hostname u);
             description := EmptyString;
             image := placeholder (JS.replace "www." EmptyString (hostname u));
             success := false |}
      | VariantB =>
          {| url := link; title := hostname u; description := EmptyString;
             image := EmptyString; success := false |}
      end.
Proof.
  intros Hu He. rewrite scrapeMetadata_try_catch, (try_catch_threw _ _ _ He).
  destruct v; [by apply catch_blockA_some | by apply catch_blockB_some].
Qed.

(** The same failure on a link the parser rejects leaves [scrapeMetadata]
    as an exception: the [catch] block parses the link again. *)
Lemma scrapeMetadata_rethrows v link net e :
  parse_url link = None ->
  try_block parse_url v link net = Threw e ->
  scrapeMetadata parse_url v link net = Threw InvalidURL.
Proof.
  intros Hu He. rewrite scrapeMetadata_try_catch, (try_catch_threw _ _ _ He).
  destruct v; unfold catch_blockA, catch_blockB;
    by rewrite (new_URL_none _ Hu).
Qed.

Lemma scrapeMetadata_returns v link net :
  is_Some (parse_url link) ->
  exists m, scrapeMetadata parse_url v link net = Returned m.
Proof.
  intros [u Hu]. destruct (try_block parse_url v link net) as [m|e] eqn:E.
  - exists m. rewrite scrapeMetadata_try_catch. by apply try_catch_returned.
  - eexists. by apply scrapeMetadata_fallback with (e := e).
Qed.

Lemma try_block_url v link net m :
  try_block parse_url v link net = Returned m -> url m = link.
Proof.
  destruct v; simpl; unfold try_blockA, try_blockB; intros H;
    repeat (apply bind_returned in H as (? & _ & H)); by inversion H.
Qed.

Lemma scrapeMetadata_url v link net m :
  scrapeMetadata parse_url v link net = Returned m -> url m = link.
Proof.
  rewrite scrapeMetadata_try_catch.
  destruct (try_block parse_url v link net) as [m'|e] eqn:E; simpl.
  - intros [= <-]. by apply try_block_url in E.
  - destruct v; unfold catch_blockA, catch_blockB; intros H;
      apply bind_returned in H as (? & _ & H); by inversion H.
Qed.

(** *** The fetch pass *)

Variable v : Variant.
Variable net : nat -> string -> FetchOutcome.

Lemma scrape_links_records urls : forall n r,
  scrape_links parse_url v net n urls = Returned r ->
  length r.1 = length urls /\ map url r.1 = urls.
Proof.
  induction urls as [|link rest IH]; simpl; intros n r H.
  - by inversion H.
  - apply bind_returned in H as (m & Hm & H).
    apply bind_returned in H as (r' & Hr' & H).
    inversion H; subst; simpl. apply scrapeMetadata_url in Hm.
    destruct (IH _ _ Hr') as [-> ->]. by rewrite Hm.
Qed.

Lemma scrape_links_returns urls : forall n,
  Forall (fun l => is_Some (parse_url l)) urls ->
  exists r, scrape_links parse_url v net n urls = Returned r.
Proof.
  induction urls as [|link rest IH]; simpl; intros n H; [eauto|].
  inversion H as [|? ? Hl Hrest]; subst.
  destruct (scrapeMetadata_returns v link (net n link) Hl) as [m ->].
  destruct (IH (S n) Hrest) as [r ->]. simpl. eauto.
Qed.

Lemma fetch_pass_records collections : forall n r,
  fetch_pass parse_url v net n collections = Returned r ->
  Forall2 fetched_from collections r.1.
Proof.
  induction collections as [|c rest IH]; simpl; intros n r H.
  - inversion H. constructor.
  - apply bind_returned in H as (m & Hm & H).
    apply bind_returned in H as (r' & Hr' & H).
    inversion H; subst; simpl. constructor; [|by eapply IH].
    destruct (scrape_links_records _ _ _ Hm) as [Hlen Hurl].
    by repeat split.
Qed.

Lemma fetch_pass_returns collections : forall n,
  all_links_parse parse_url collections ->
  exists r, fetch_pass parse_url v net n collections = Returned r.
Proof.
  induction collections as [|c rest IH]; simpl; intros n H; [eauto|].
  inversion H as [|? ? Hc Hrest]; subst.
  destruct (scrape_links_returns (links c) n Hc) as [m ->]. simpl.
  destruct (IH m.2 Hrest) as [r ->]. simpl. eauto.
Qed.

End FetcherFacts.

(** When the fetch pass of the orchestrator comes to its end, every
    collection is the one it was with a [metadata] sequence that has one
    record per link, the record at each position being the one of the link
    at that position; and the pass does come to its end, whatever the
    outcomes of the fetches, on links that the URL parser accepts. *)
Theorem fetch_pass_one_record_per_link
  (parse_url : string -> option URLobj) (v : Variant)
  (net : nat -> string -> FetchOutcome) (n : nat)
  (collections : list Collection) :
  (forall r, fetch_pass parse_url v net n collections = Returned r ->
             Forall2 fetched_from collections r.1)
  /\ (all_links_parse parse_url collections ->
      exists r, fetch_pass parse_url v net n collections = Returned r
                /\ Forall2 fetched_from collections r.1).
Proof.
  split; [apply fetch_pass_records|].
  intros H. destruct (fetch_pass_returns parse_url v net collections n H) as [r Hr].
  exists r. split; [done|]. by eapply fetch_pass_records.
Qed.

Lemma fetch_pass_one_record_per_link_witness :
  exists r,
    fetch_pass WHATWG.parse VariantA sample_net 0 (parseLinks colliding_links)
      = Returned r
    /\ Forall2 fetched_from (parseLinks colliding_links) r.1.
Proof.
  apply (proj2 (fetch_pass_one_record_per_link WHATWG.parse VariantA sample_net 0
                  (parseLinks colliding_links))).
  repeat constructor; vm_compute; eauto.
Defined.

(** C3: a link file whose first link has a space in its host, followed by a
    well-formed link.  The fetch of the first link fails, the [catch] block
    of [scrapeMetadata] throws (the defect of C2), and the fetch pass ends
    there: no collection gets its metadata, the second link gets no record,
    and the run ends with nothing written, in both variants. *)
Theorem fetch_pass_aborts_on_rejected_link (v : Variant) :
  map links (parseLinks rejected_link_file)
    = [["https://exa mple.com"; "https://example.com/"]]
  /\ fetch_pass WHATWG.parse v sample_net 0 (parseLinks rejected_link_file)
     = Threw InvalidURL
  /\ build_run WHATWG.parse v sample_net nothing_refused
       (sample_fs rejected_link_file)
     = (Threw InvalidURL, sample_fs rejected_link_file).
Proof. destruct v; repeat split; vm_compute; reflexivity. Qed.

(* ===================================================================== *)
(** ** The fetcher at particular inputs *)
(* ===================================================================== *)

(** C2: on a link that the URL constructor rejects, here one with a space in
    the host, a failed fetch does not come back as a fallback record:
    in both variants [scrapeMetadata] throws. *)
Theorem scrapeMetadata_throws_on_malformed_url (v : Variant) :
  WHATWG.parse "https://exa mple.com" = None
  /\ scrapeMetadata WHATWG.parse v "https://exa mple.com" Rejected
     = Threw InvalidURL.
Proof. destruct v; split; vm_compute; reflexivity. Qed.

(** The exception reaches the orchestrator, which has no handler of its
    own: the whole build ends with it. *)
Example build_aborts_on_malformed_url (v : Variant) :
  build WHATWG.parse v sample_net
    (sample_fs (lines ["# Tools"; "https://exa mple.com"; "https://example.com/"]))
  = Threw InvalidURL.
Proof. destruct v; vm_compute; reflexivity. Qed.

(** C4: a page that answers, and whose only title is a blank [<title>],
    gets the empty title in both variants: the blank text is truthy, so the
    hostname is not reached, and the final [trim] empties it. *)
Theorem scrapeMetadata_blank_title (v : Variant) :
  exists m,
    scrapeMetadata WHATWG.parse v "https://example.com/"
      (ok_response blank_title_page) = Returned m
    /\ success m = true /\ title m = EmptyString.
Proof. destruct v; eexists; vm_compute; repeat split. Qed.

(** C5: a description of 201 characters that starts with a space comes back
    as 199 characters and the ellipsis, in both variants: the final [trim]
    takes the leading space away after the cut at 200. *)
Theorem scrapeMetadata_short_truncation (v : Variant) :
  (200 < String.length padded_description)%nat
  /\ exists m,
       scrapeMetadata WHATWG.parse v "https://example.com/"
         (ok_response padded_page) = Returned m
       /\ description m = str_repeat 199 "a" ++ "..."
       /\ String.length (str_repeat 199 "a") = 199%nat.
Proof.
  split; [vm_compute; lia|]. destruct v; eexists; vm_compute; repeat split.
Qed.

(* ===================================================================== *)
(** ** Titles and descriptions of a page that answered *)
(* ===================================================================== *)

Lemma app_cons c s t : String c s ++ t = String c (s ++ t).
Proof. reflexivity. Qed.

Lemma substring0_length n : forall s,
  (n <= String.length s)%nat -> String.length (JS.substring0 n s) = n.
Proof.
  unfold JS.substring0. induction n as [|n IH]; intros [|c s]; simpl;
    try lia; try done.
  intros H. rewrite IH; [done|lia].
Qed.

Lemma trimEnd_dots s : JS.trimEnd (s ++ "...") = s ++ "...".
Proof.
  induction s as [|c s IH]; [reflexivity|].
  rewrite app_cons. simpl. rewrite IH. by destruct s.
Qed.

Lemma trim_truncate d :
  (200 < String.length d)%nat -> first_char_not_space d = true ->
  JS.trim (truncate d) = truncate d.
Proof.
  intros Hlen Hc. unfold JS.trim, truncate.
  destruct d as [|c d]; [discriminate|]. simpl in Hc.
  apply negb_true_iff in Hc.
  unfold JS.substring0. simpl String.substring. rewrite app_cons.
  simpl JS.trimStart. rewrite Hc. rewrite <- app_cons. apply trimEnd_dots.
Qed.

Lemma first_char_truthy s : first_char_not_space s = true -> JS.truthy s = true.
Proof. by destruct s. Qed.

Section ContentFacts.

Variable parse_url : string -> option URLobj.

(** Before the final [trim], the title chain never yields the empty
    string when host names are not empty. *)
Lemma extract_title_not_empty page link t :
  (forall u, parse_url link = Some u -> hostname u <> EmptyString) ->
  extract_title parse_url page link = Returned t -> t <> EmptyString.
Proof.
  intros Hhost. unfold extract_title, new_URL.
  destruct (JS.or_else _ _) as [c|]; [destruct (JS.truthy c) eqn:E|].
  - intros [= <-]. by destruct c.
  - destruct (parse_url link) eqn:Eu; [|discriminate].
    intros [= <-]. by apply Hhost.
  - destruct (parse_url link) eqn:Eu; [|discriminate].
    intros [= <-]. by apply Hhost.
Qed.

(** A description over 200 characters that does not start with white
    space, and that variant A does not discard as generic, comes back as
    its first 200 characters and the ellipsis. *)
Lemma truncation_exact v link net page m :
  load net = Returned page ->
  try_block parse_url v link net = Returned m ->
  (200 < String.length (extract_description page))%nat ->
  first_char_not_space (extract_description page) = true ->
  (v = VariantA -> isGenericDescription (extract_description page) link = false) ->
  description m = JS.substring0 200 (extract_description page) ++ "..."
  /\ String.length (JS.substring0 200 (extract_description page)) = 200%nat.
Proof.
  intros Hload Htry Hlen Hc Hgen.
  split; [|apply substring0_length; lia].
  apply Nat.ltb_lt in Hlen as Hlt.
  destruct v; simpl in Htry; unfold try_blockA, try_blockB in Htry;
    rewrite Hload in Htry; simpl in Htry;
    repeat (apply bind_returned in Htry as (? & _ & Htry));
    inversion Htry; subst; simpl.
  - rewrite (Hgen eq_refl), Hlt, (first_char_truthy _ Hc).
    by apply trim_truncate.
  - rewrite Hlt. by apply trim_truncate.
Qed.

End ContentFacts.

(* ===================================================================== *)
(** ** Image references *)
(* ===================================================================== *)

Lemma truthy_true s : s <> EmptyString -> JS.truthy s = true.
Proof. destruct s; [done|reflexivity]. Qed.

Lemma truthy_false s : JS.truthy s = false -> s = EmptyString.
Proof. destruct s; [done|discriminate]. Qed.

Lemma replace_prefix p r s :
  JS.startsWith p s = true ->
  JS.replace p r s = r ++ JS.drop (String.length p) s.
Proof. destruct s; simpl; by intros ->. Qed.

Lemma force_https_replace s :
  (if JS.truthy s && JS.startsWith "http://" s
   then Some (JS.replace "http://" "https://" s) else Some s)
  = Some (force_https s).
Proof.
  unfold force_https. destruct (JS.startsWith "http://" s) eqn:E.
  - rewrite (replace_prefix _ _ _ E). by destruct s.
  - by rewrite andb_false_r.
Qed.

Lemma force_https_no_http s : JS.startsWith "http://" (force_https s) = false.
Proof.
  unfold force_https. destruct (JS.startsWith "http://" s) eqn:E; [|exact E].
  reflexivity.
Qed.

Lemma protocol_relative_absolute u ref :
  JS.startsWith "//" ref = true ->
  force_https (absolute_ref "https:" u ref) = "https:" ++ ref.
Proof.
  intros H. destruct ref as [|a ref]; cbn [JS.startsWith] in H; [discriminate|].
  destruct (Ascii.eqb_spec "/" a) as [<-|]; [|discriminate].
  unfold absolute_ref. cbn [JS.startsWith] in *. simpl in H. simpl.
  rewrite H. reflexivity.
Qed.

Lemma slash_not_http s : JS.startsWith "/" s = true -> JS.startsWith "http" s = false.
Proof.
  destruct s as [|c s]; [done|]. cbn [JS.startsWith].
  destruct (Ascii.eqb_spec "/" c) as [<-|]; [done | discriminate].
Qed.

Lemma double_slash_slash s : JS.startsWith "//" s = true -> JS.startsWith "/" s = true.
Proof.
  destruct s as [|c s]; [done|]. cbn [JS.startsWith].
  by destruct (Ascii.eqb "/" c).
Qed.

Lemma startsWith_shorter p q s :
  JS.startsWith (p ++ q) s = true -> JS.startsWith p s = true.
Proof.
  revert s. induction p as [|c p IH]; intros s; [done|].
  rewrite app_cons. cbn [JS.startsWith]. destruct s as [|d s]; [done|].
  intros [-> H]%andb_prop. by rewrite (IH _ H).
Qed.

Section ImageFacts.

Variable parse_url : string -> option URLobj.

Lemma normalize_imageA_absolute link u ref :
  parse_url link = Some u -> ref <> EmptyString ->
  normalize_imageA parse_url link (Some ref)
  = Returned (Some (force_https (absolute_ref "https:" u ref))).
Proof.
  intros Hu Hne. unfold normalize_imageA, absolute_ref.
  rewrite (truthy_true _ Hne), (new_URL_some _ _ _ Hu).
  destruct (JS.startsWith "http" ref); cbn [negb andb bind];
    by rewrite force_https_replace.
Qed.

Lemma normalize_imageB_absolute link u ref :
  parse_url link = Some u -> ref <> EmptyString ->
  normalize_imageB parse_url link ref
  = Returned (absolute_ref (protocol u) u ref).
Proof.
  intros Hu Hne. unfold normalize_imageB, absolute_ref.
  rewrite (truthy_true _ Hne), (new_URL_some _ _ _ Hu).
  by destruct (JS.startsWith "http" ref).
Qed.

End ImageFacts.

(** C7, as the code has it: for a non-empty image reference on a page whose
    link the URL parser accepts, variant A puts [https:] in front of a
    protocol-relative reference, the origin of the page in front of a
    root-relative one, the origin and a slash in front of one that starts
    with neither a slash nor [http], and turns a leading [http://] of the
    result, or of an absolute [http://] reference, into [https://], so that
    no result starts with [http://]; variant B puts the protocol of the page
    in front of a protocol-relative reference, resolves the other two kinds
    the same way, and rewrites nothing. *)
Theorem image_normalization
  (parse_url : string -> option URLobj) (link : string) (u : URLobj)
  (ref : string) :
  parse_url link = Some u -> ref <> EmptyString ->
  (JS.startsWith "//" ref = true ->
   normalize_imageA parse_url link (Some ref) = Returned (Some ("https:" ++ ref))
   /\ normalize_imageB parse_url link ref = Returned (protocol u ++ ref))
  /\ (JS.startsWith "/" ref = true -> JS.startsWith "//" ref = false ->
      normalize_imageA parse_url link (Some ref)
        = Returned (Some (force_https (origin u ++ ref)))
      /\ normalize_imageB parse_url link ref = Returned (origin u ++ ref))
  /\ (JS.startsWith "/" ref = false -> JS.startsWith "http" ref = false ->
      normalize_imageA parse_url link (Some ref)
        = Returned (Some (force_https (origin u ++ "/" ++ ref)))
      /\ normalize_imageB parse_url link ref
         = Returned (origin u ++ "/" ++ ref))
  /\ (JS.startsWith "http://" ref = true ->
      normalize_imageA parse_url link (Some ref)
        = Returned (Some ("https://" ++ JS.drop 7 ref))
      /\ normalize_imageB parse_url link ref = Returned ref)
  /\ (exists r, normalize_imageA parse_url link (Some ref) = Returned (Some r)
                /\ JS.startsWith "http://" r = false).
Proof.
  intros Hu Hne.
  rewrite (normalize_imageA_absolute parse_url link u ref Hu Hne).
  rewrite (normalize_imageB_absolute parse_url link u ref Hu Hne).
  split; [|split; [|split; [|split]]].
  - intros H2. rewrite (protocol_relative_absolute u ref H2).
    unfold absolute_ref.
    by rewrite (slash_not_http _ (double_slash_slash _ H2)), H2.
  - intros H1 H2. unfold absolute_ref.
    by rewrite (slash_not_http _ H1), H2, H1.
  - intros H1 Hh. unfold absolute_ref. rewrite Hh, H1.
    destruct (JS.startsWith "//" ref) eqn:H2; [|done].
    apply double_slash_slash in H2. congruence.
  - intros Hh. unfold absolute_ref.
    rewrite (startsWith_shorter "http" "://" ref Hh).
    unfold force_https. by rewrite Hh.
  - eexists. split; [reflexivity | apply force_https_no_http].
Qed.

Lemma image_normalization_witness :
  normalize_imageA WHATWG.parse "http://example.com/page" (Some "img/a.png")
  = Returned (Some "https://example.com/img/a.png")
  /\ normalize_imageB WHATWG.parse "http://example.com/page" "img/a.png"
     = Returned "http://example.com/img/a.png".
Proof.
  destruct (image_normalization WHATWG.parse "http://example.com/page"
              {| protocol := "http:"; hostname := "example.com";
                 origin := "http://example.com" |} "img/a.png")
    as (_ & _ & H & _); [reflexivity | discriminate |].
  destruct (H eq_refl eq_refl) as [HA HB]. split; [exact HA | exact HB].
Defined.

(** C7 as stated fails in variant B: on a page served over [http], a
    protocol-relative image reference comes back with [http:] in front, not
    [https:], and the [http://] it then starts with is not rewritten. *)
Lemma variantB_keeps_page_protocol :
  exists m,
    scrapeMetadata WHATWG.parse VariantB "http://example.com/page"
      (ok_response cdn_page) = Returned m
    /\ image m = "http:" ++ "//cdn.example.com/a.png"
    /\ image m <> "https:" ++ "//cdn.example.com/a.png"
    /\ JS.startsWith "http://" (image m) = true.
Proof. eexists. vm_compute. repeat split. discriminate. Qed.

(* ===================================================================== *)
(** ** The renderer *)
(* ===================================================================== *)

(** C1: the collection page carries the collection name and the image URL
    of a record as they are.  A collection named with a script tag, and a
    scraped [og:image] that closes its attribute and opens a script tag,
    both put a literal [<script>] into the page, in both variants; the same
    tag as a title or description is escaped and leaves none. *)
Theorem collection_page_interpolates_unescaped (v : Variant) :
  JS.includes "<script>" (generateCollectionPage v script_collection []) = true
  /\ (exists m,
        scrapeMetadata WHATWG.parse v "https://example.com/"
          (ok_response script_image_page) = Returned m
        /\ JS.includes "<script>"
             (generateCollectionPage v plain_collection [m]) = true)
  /\ JS.includes "<script>"
       (generateCollectionPage v plain_collection [script_title_record]) = false.
Proof.
  destruct v; (split; [|split]); try (eexists; split); vm_compute; reflexivity.
Qed.

(* ===================================================================== *)
(** ** Slugs as file names *)
(* ===================================================================== *)

Lemma write_pages_app v cs1 cs2 fs :
  write_pages v (cs1 ++ cs2) fs = write_pages v cs2 (write_pages v cs1 fs).
Proof. apply fold_left_app. Qed.

Lemma write_pages_last v cs c fs :
  files (write_pages v (cs ++ [c]) fs) !! page_path c
  = Some (generateCollectionPage v c (metadata c)).
Proof. rewrite write_pages_app. simpl. apply lookup_insert_eq. Qed.

(** C9: [slugify] is not injective, the names Tools and Tools! have one
    slug; and two collections with one slug have one output path, at which
    the write pass leaves the page of the later collection. *)
Theorem slug_collision_overwrites :
  "Tools" <> "Tools!"
  /\ slugify "Tools" = slugify "Tools!"
  /\ forall v c1 c2 fs,
       slug c1 = slug c2 ->
       page_path c1 = page_path c2
       /\ files (write_pages v [c1; c2] fs) !! page_path c1
          = Some (generateCollectionPage v c2 (metadata c2)).
Proof.
  split; [discriminate|]. split; [reflexivity|].
  intros v c1 c2 fs H.
  assert (Hp : page_path c1 = page_path c2) by (unfold page_path; by rewrite H).
  split; [done|]. rewrite Hp. apply (write_pages_last v [c1] c2).
Qed.

Lemma slug_collision_overwrites_witness :
  page_path tools = page_path tools_bang
  /\ files (write_pages VariantA [tools; tools_bang] (sample_fs colliding_links))
       !! page_path tools
     = Some (generateCollectionPage VariantA tools_bang (metadata tools_bang)).
Proof.
  apply (proj2 (proj2 slug_collision_overwrites) VariantA tools tools_bang).
  reflexivity.
Defined.

(** The whole build on a link file with the two headings: one page file for
    the two collections, holding the page of the second. *)
Example build_overwrites_page (v : Variant) :
  exists fs,
    build WHATWG.parse v sample_net (sample_fs colliding_links) = Returned fs
    /\ exists page,
         files fs !! "dist/tools.html" = Some page
         /\ JS.includes "<h1>Tools!</h1>" page = true
         /\ JS.includes "<h1>Tools</h1>" page = false.
Proof.
  destruct v; eexists; (split; [vm_compute; reflexivity|]);
    eexists; (split; [vm_compute; reflexivity|]); split; vm_compute; reflexivity.
Qed.

(* ===================================================================== *)
(** ** [trim] *)
(* ===================================================================== *)

Lemma trimStart_fixed s :
  match s with String c _ => JS.is_space c = false | EmptyString => True end ->
  JS.trimStart s = s.
Proof. destruct s as [|c s]; simpl; [done|]. by intros ->. Qed.

Lemma trimStart_head s :
  match JS.trimStart s with
  | String c _ => JS.is_space c = false
  | EmptyString => True
  end.
Proof.
  induction s as [|c s IH]; simpl; [done|].
  destruct (JS.is_space c) eqn:E; [exact IH | exact E].
Qed.

Lemma trimEnd_head s :
  match s with String c _ => JS.is_space c = false | EmptyString => True end ->
  match JS.trimEnd s with
  | String c _ => JS.is_space c = false
  | EmptyString => True
  end.
Proof.
  destruct s as [|c s]; simpl; [done|]. intros H.
  destruct (JS.trimEnd s); [by rewrite H | done].
Qed.

Lemma trimEnd_idempotent s : JS.trimEnd (JS.trimEnd s) = JS.trimEnd s.
Proof.
  induction s as [|c s IH]; simpl; [done|].
  destruct (JS.trimEnd s) as [|d r] eqn:E.
  - destruct (JS.is_space c) eqn:Ec; simpl; [done|]. by rewrite Ec.
  - simpl. simpl in IH. rewrite IH. by destruct (JS.trimEnd r).
Qed.

Lemma trim_idempotent s : JS.trim (JS.trim s) = JS.trim s.
Proof.
  unfold JS.trim.
  rewrite (trimStart_fixed (JS.trimEnd (JS.trimStart s)))
    by apply trimEnd_head, trimStart_head.
  apply trimEnd_idempotent.
Qed.

Lemma trimStart_length s : (String.length (JS.trimStart s) <= String.length s)%nat.
Proof.
  induction s as [|c s IH]; simpl; [done|].
  destruct (JS.is_space c); simpl; lia.
Qed.

Lemma trimEnd_length s : (String.length (JS.trimEnd s) <= String.length s)%nat.
Proof.
  induction s as [|c s IH]; simpl; [done|].
  destruct (JS.trimEnd s); [destruct (JS.is_space c)|]; simpl in *; lia.
Qed.

Lemma trim_length s : (String.length (JS.trim s) <= String.length s)%nat.
Proof.
  unfold JS.trim. etransitivity; [apply trimEnd_length | apply trimStart_length].
Qed.

(* ===================================================================== *)
(** ** The link-list parser *)
(* ===================================================================== *)

Lemma flush_length (st : ParseState) :
  length (flush st) = (length st.1 + match st.2 with Some _ => 1 | None => 0 end)%nat.
Proof.
  destruct st as [cs [c|]]; unfold flush; simpl;
    [rewrite length_app; simpl; lia | lia].
Qed.

Lemma parse_line_count st line :
  length (flush (parse_line st line))
  = (length (flush st) + if is_heading line then 1 else 0)%nat.
Proof.
  unfold parse_line, is_heading.
  destruct (JS.startsWith "# " (JS.trim line)).
  - rewrite flush_length. simpl. lia.
  - destruct (_ || _); [|lia].
    destruct st as [cs [c|]]; simpl; [|lia].
    rewrite !flush_length. simpl. lia.
Qed.

Lemma fold_parse_count ls : forall st,
  length (flush (fold_left parse_line ls st))
  = (length (flush st) + length (List.filter is_heading ls))%nat.
Proof.
  induction ls as [|l ls IH]; intros st; simpl; [lia|].
  rewrite IH, parse_line_count. destruct (is_heading l); simpl; lia.
Qed.

(** The parser yields one collection per heading line, whatever else the
    file holds. *)
Theorem parseLinks_one_collection_per_heading (content : string) :
  length (parseLinks content)
  = length (List.filter is_heading (JS.split_lines content)).
Proof. unfold parseLinks. by rewrite fold_parse_count. Qed.

Lemma flush_ok st : parse_state_ok st -> Forall parsed_collection (flush st).
Proof.
  destruct st as [cs [c|]]; unfold flush; intros [H1 H2]; simpl in *; [|done].
  apply Forall_app. split; [done|]. by constructor.
Qed.

Lemma parse_line_ok st line : parse_state_ok st -> parse_state_ok (parse_line st line).
Proof.
  intros Hst. unfold parse_line.
  destruct (JS.startsWith "# " (JS.trim line)).
  - split; simpl; [by apply flush_ok|].
    repeat split; simpl; [apply trim_idempotent | constructor].
  - destruct (_ || _) eqn:El; [|done].
    destruct st as [cs [c|]]; [|done]. destruct Hst as [H1 H2]. simpl in *.
    split; [done|]. simpl. destruct H2 as (Hs & Hn & Hm & Hl).
    repeat split; simpl; try done.
    apply Forall_app. split; [done|]. constructor; [|constructor].
    split; [apply trim_idempotent | exact El].
Qed.

Lemma fold_parse_ok ls : forall st,
  parse_state_ok st -> parse_state_ok (fold_left parse_line ls st).
Proof.
  induction ls as [|l ls IH]; intros st H; simpl; [done|].
  by apply IH, parse_line_ok.
Qed.

(** Every collection that leaves the parser has the slug of its name, a
    trimmed name, no metadata yet, and links that are trimmed lines starting
    with [http://] or [https://]. *)
Theorem parseLinks_collections_well_formed (content : string) :
  Forall parsed_collection (parseLinks content).
Proof.
  unfold parseLinks. apply flush_ok, fold_parse_ok.
  split; simpl; [constructor | done].
Qed.

Lemma heading_not_link line :
  is_heading line = true -> is_link (JS.trim line) = false.
Proof.
  unfold is_heading, is_link. destruct (JS.trim line) as [|c s]; [done|].
  cbn [JS.startsWith]. destruct (Ascii.eqb_spec "#" c) as [<-|]; [done|].
  discriminate.
Qed.

Lemma flush_links (st : ParseState) :
  concat (map links (flush st))
  = (concat (map links st.1)
     ++ match st.2 with Some c => links c | None => [] end)%list.
Proof.
  destruct st as [cs [c|]]; unfold flush; simpl.
  - rewrite map_app, concat_app. simpl. by rewrite app_nil_r.
  - by rewrite app_nil_r.
Qed.

Lemma fold_parse_links ls : forall st,
  concat (map links (flush (fold_left parse_line ls st)))
  = (concat (map links (flush st))
     ++ listed_links (match st.2 with Some _ => true | None => false end) ls)%list.
Proof.
  induction ls as [|l ls IH]; intros st; simpl; [by rewrite app_nil_r|].
  rewrite IH. unfold parse_line. fold (is_heading l). fold (is_link (JS.trim l)).
  destruct (is_heading l) eqn:Eh.
  - simpl. rewrite (flush_links (flush st, _)). simpl. by rewrite !app_nil_r.
  - destruct (is_link (JS.trim l)) eqn:El; simpl; [|done].
    destruct st as [cs [c|]]; simpl; [|done].
    rewrite !flush_links. simpl. by rewrite <- !app_assoc.
Qed.

(** The links of the collections, read in order, are the link lines of the
    file from its first heading on, trimmed and in file order: none is lost,
    added or moved, and those before the first heading are dropped. *)
Theorem parseLinks_keeps_links_in_order (content : string) :
  concat (map links (parseLinks content))
  = listed_links false (JS.split_lines content).
Proof. unfold parseLinks. by rewrite fold_parse_links. Qed.

(* ===================================================================== *)
(** ** More on [slugify] *)
(* ===================================================================== *)

Lemma lower_char_idempotent c : JS.lower_char (JS.lower_char c) = JS.lower_char c.
Proof. each_char c. Qed.

Lemma toLowerCase_idempotent s :
  JS.toLowerCase (JS.toLowerCase s) = JS.toLowerCase s.
Proof.
  unfold JS.toLowerCase. induction s as [|c s IH]; simpl; [done|].
  by rewrite lower_char_idempotent, IH.
Qed.

(** The slugs are exactly the strings over [a-z], [0-9], [_] and [-] with no
    two hyphens in a row: every result of [slugify] is one, and [slugify]
    leaves a string unchanged exactly when it is one. *)
Theorem slugify_fixed_points (s : string) :
  JS.all_chars slug_char (slugify s) = true
  /\ no_hyphen_pair false (slugify s) = true
  /\ (slugify s = s <->
      JS.all_chars slug_char s = true /\ no_hyphen_pair false s = true).
Proof.
  split; [apply slugify_chars|]. split; [apply slugify_no_hyphen_pair|].
  split.
  - intros <-. split; [apply slugify_chars | apply slugify_no_hyphen_pair].
  - intros [Hc Hp]. by apply slugify_fixed.
Qed.

Lemma slugify_fixed_points_witness : slugify "my-tools_2" = "my-tools_2".
Proof.
  apply (proj2 (proj2 (slugify_fixed_points "my-tools_2"))). by split.
Defined.

(** [slugify] does not see the case of letters: lowering the text first
    gives the same slug, and two texts with the same lower-case form have
    the same slug. *)
Theorem slugify_blind_to_case (s t : string) :
  slugify (JS.toLowerCase s) = slugify s
  /\ (JS.toLowerCase s = JS.toLowerCase t -> slugify s = slugify t).
Proof.
  unfold slugify. split.
  - by rewrite toLowerCase_idempotent.
  - by intros ->.
Qed.

Lemma slugify_blind_to_case_witness : slugify "Tools" = slugify "TOOLS".
Proof. apply (proj2 (slugify_blind_to_case "Tools" "TOOLS")). reflexivity. Defined.

(* ===================================================================== *)
(** ** More on [escapeHtml] *)
(* ===================================================================== *)

Lemma string_app_assoc (s t u : string) : (s ++ t) ++ u = s ++ (t ++ u).
Proof. induction s as [|c s IH]; [done|]. rewrite !app_cons. by rewrite IH. Qed.

Lemma string_app_length (s t : string) :
  String.length (s ++ t) = (String.length s + String.length t)%nat.
Proof. induction s as [|c s IH]; [done|]. rewrite app_cons. simpl. by rewrite IH. Qed.

Lemma escaped_char_length c :
  (if is_html_special c then 4 <= String.length (escaped_char c)
   else escaped_char c = String c EmptyString)%nat.
Proof. destruct c as [[] [] [] [] [] [] [] []]; vm_compute; (reflexivity || lia). Qed.

Lemma escapeHtml_length s : (String.length s <= String.length (escapeHtml s))%nat.
Proof.
  induction s as [|c s IH]; [done|].
  rewrite escapeHtml_cons, string_app_length. simpl.
  pose proof (escaped_char_length c) as H.
  destruct (is_html_special c); [lia|]. rewrite H. simpl. lia.
Qed.

(** [escapeHtml] works character by character: the escape of a
    concatenation is the concatenation of the escapes, and no escape is
    shorter than its text. *)
Theorem escapeHtml_app (s t : string) :
  escapeHtml (s ++ t) = escapeHtml s ++ escapeHtml t
  /\ (String.length s <= String.length (escapeHtml s))%nat.
Proof.
  split; [|apply escapeHtml_length].
  induction s as [|c s IH]; [done|].
  by rewrite app_cons, !escapeHtml_cons, IH, string_app_assoc.
Qed.

(** [escapeHtml] returns its argument unchanged exactly when the argument
    holds none of the five characters it escapes. *)
Theorem escapeHtml_identity_iff (s : string) :
  escapeHtml s = s
  <-> JS.all_chars (fun c => negb (is_html_special c)) s = true.
Proof.
  split.
  - intros H. apply (f_equal String.length) in H. revert H.
    induction s as [|c s IH]; [done|].
    rewrite escapeHtml_cons, string_app_length. simpl.
    pose proof (escaped_char_length c) as Hc. pose proof (escapeHtml_length s).
    destruct (is_html_special c); [lia|]. rewrite Hc. simpl.
    intros [= Hl]. by apply IH.
  - induction s as [|c s IH]; [done|]. simpl JS.all_chars.
    intros [Hc Hs]%andb_prop. apply negb_true_iff in Hc.
    rewrite escapeHtml_cons. pose proof (escaped_char_length c) as H.
    rewrite Hc in H. rewrite H, (IH Hs). reflexivity.
Qed.

Lemma escapeHtml_identity_iff_witness : escapeHtml "a plain title" = "a plain title".
Proof. apply (proj2 (escapeHtml_identity_iff "a plain title")). reflexivity. Defined.

Lemma escaped_char_cases c :
  (escaped_char c = String c EmptyString /\ JS.is_char 38 c = false)
  \/ (c = ascii_of_N 38 \/ c = ascii_of_N 60 \/ c = ascii_of_N 62
      \/ c = ascii_of_N 34 \/ c = ascii_of_N 39).
Proof.
  destruct c as [[] [] [] [] [] [] [] []];
    first [ left; split; reflexivity | right; vm_compute; tauto ].
Qed.

Lemma escaped_char_prefix_free c d x y :
  escaped_char c ++ x = escaped_char d ++ y -> c = d /\ x = y.
Proof.
  destruct (escaped_char_cases c) as [[Hc Hca]|Hc];
    destruct (escaped_char_cases d) as [[Hd Hda]|Hd].
  - rewrite Hc, Hd. change (String c x = String d y -> c = d /\ x = y).
    by intros [= -> ->].
  - rewrite Hc. destruct Hd as [ -> | [ -> | [ -> | [ -> | -> ]]]]; vm_compute;
      intros [= -> _]; discriminate Hca.
  - rewrite Hd. destruct Hc as [ -> | [ -> | [ -> | [ -> | -> ]]]]; vm_compute;
      intros [= <- _]; discriminate Hda.
  - destruct Hc as [ -> | [ -> | [ -> | [ -> | -> ]]]];
      destruct Hd as [ -> | [ -> | [ -> | [ -> | -> ]]]]; vm_compute;
      intros H; inversion H; done.
Qed.

(** [escapeHtml] loses nothing: two texts with the same escape are the same
    text. *)
Theorem escapeHtml_injective (s t : string) :
  escapeHtml s = escapeHtml t -> s = t.
Proof.
  revert t. induction s as [|c s IH]; intros [|d t].
  - done.
  - rewrite escapeHtml_cons. intros H. apply (f_equal String.length) in H.
    rewrite string_app_length in H. pose proof (escaped_char_length d) as Hd.
    destruct (is_html_special d); [simpl in H; lia|]. rewrite Hd in H. discriminate.
  - rewrite escapeHtml_cons. intros H. apply (f_equal String.length) in H.
    rewrite string_app_length in H. pose proof (escaped_char_length c) as Hc.
    destruct (is_html_special c); [simpl in H; lia|]. rewrite Hc in H. discriminate.
  - rewrite !escapeHtml_cons. intros [-> H]%escaped_char_prefix_free.
    by rewrite (IH _ H).
Qed.

Lemma escapeHtml_injective_witness : "a<b" = "a<b".
Proof. apply (escapeHtml_injective "a<b" "a<b"). reflexivity. Defined.

(* ===================================================================== *)
(** ** [findFirstImage] *)
(* ===================================================================== *)





(* ===================================================================== *)
(** ** More on the fetcher *)
(* ===================================================================== *)

Lemma substring0_le n : forall s, (String.length (JS.substring0 n s) <= n)%nat.
Proof.
  unfold JS.substring0. induction n as [|n IH]; intros [|c s]; simpl; try lia.
  specialize (IH s). lia.
Qed.

Lemma truncate_length d : (String.length (truncate d) <= 203)%nat.
Proof.
  unfold truncate. rewrite string_app_length.
  pose proof (substring0_le 200 d). simpl. lia.
Qed.

Lemma truthy_nonempty s : JS.truthy s = false -> String.length s = 0%nat.
Proof. by destruct s. Qed.

Section RecordFacts.

Variable parse_url : string -> option URLobj.

Lemma scrapeMetadata_cases v link net m :
  scrapeMetadata parse_url v link net = Returned m ->
  try_block parse_url v link net = Returned m
  \/ exists e u, try_block parse_url v link net = Threw e
                 /\ parse_url link = Some u /\ m = fallback_record v link u.
Proof.
  intros H. destruct (try_block parse_url v link net) as [m'|e] eqn:E.
  - left. rewrite scrapeMetadata_try_catch, E in H. simpl in H. congruence.
  - right. destruct (parse_url link) as [u|] eqn:Eu.
    + exists e, u. repeat split.
      rewrite (scrapeMetadata_fallback _ _ _ _ _ _ Eu E) in H.
      destruct v; injection H as <-; reflexivity.
    + rewrite (scrapeMetadata_rethrows _ _ _ _ _ Eu E) in H. discriminate.
Qed.

(** [scrapeMetadata] keeps the link in the record it returns, and the only
    exception that leaves it is the one of the URL constructor, on a link
    the constructor rejects: no network error, status or body failure gets
    out. *)
Theorem scrapeMetadata_only_throws_invalid_url
  (v : Variant) (link : string) (net : FetchOutcome) :
  match scrapeMetadata parse_url v link net with
  | Returned m => url m = link
  | Threw e => e = InvalidURL /\ parse_url link = None
  end.
Proof.
  destruct (scrapeMetadata parse_url v link net) as [m|e] eqn:E.
  - by apply scrapeMetadata_url in E.
  - destruct (parse_url link) as [u|] eqn:Eu.
    + destruct (scrapeMetadata_returns parse_url v link net) as [m Hm]; [by eexists|].
      congruence.
    + split; [|done]. rewrite scrapeMetadata_try_catch in E.
      destruct (try_block parse_url v link net) as [m|e'] eqn:Et; [discriminate|].
      simpl in E. destruct v; unfold catch_blockA, catch_blockB in E;
        rewrite (new_URL_none _ _ Eu) in E; simpl in E; congruence.
Qed.

Lemma extract_title_returns page link u :
  parse_url link = Some u ->
  exists t, extract_title parse_url page link = Returned t.
Proof.
  intros Hu. unfold extract_title. rewrite (new_URL_some _ _ _ Hu).
  destruct (JS.or_else _ _) as [t|]; [destruct (JS.truthy t)|]; cbn [bind]; eauto.
Qed.

Lemma normalize_imageA_returns link u i :
  parse_url link = Some u ->
  exists r, normalize_imageA parse_url link i = Returned r.
Proof.
  intros Hu. unfold normalize_imageA. rewrite (new_URL_some _ _ _ Hu).
  destruct i as [i|]; [destruct (_ && _)|]; cbn [bind]; eauto.
Qed.

Lemma normalize_imageB_returns link u i :
  parse_url link = Some u ->
  exists r, normalize_imageB parse_url link i = Returned r.
Proof.
  intros Hu. unfold normalize_imageB. rewrite (new_URL_some _ _ _ Hu).
  destruct (_ && _); cbn [bind]; eauto.
Qed.

Lemma try_block_answered v link net u page :
  parse_url link = Some u -> load net = Returned page ->
  exists m, try_block parse_url v link net = Returned m /\ success m = true.
Proof.
  intros Hu Hl.
  destruct (extract_title_returns page link u Hu) as [t Ht].
  destruct v; cbn [try_block]; unfold try_blockA, try_blockB;
    rewrite Hl; cbn [bind]; rewrite Ht; cbn [bind].
  - assert (exists i1,
        (if negb (JS.truthy (extract_image page))
         then findFirstImage parse_url page link
         else Returned (Some (extract_image page))) = Returned i1) as [i1 ->].
    { destruct (negb _); [|eauto]. unfold findFirstImage.
      rewrite (new_URL_some _ _ _ Hu). cbn [bind]. eauto. }
    cbn [bind]. destruct (normalize_imageA_returns link u i1 Hu) as [i2 ->].
    cbn [bind]. rewrite (new_URL_some _ _ _ Hu).
    destruct (negb (JS.truthy_opt i2)); cbn [bind]; eauto.
  - destruct (normalize_imageB_returns link u (extract_image page) Hu) as [i ->].
    cbn [bind]. eauto.
Qed.

(** On a link the URL constructor accepts, [scrapeMetadata] returns a record
    whose [success] flag tells exactly whether the fetch resolved with an
    [ok] status and a readable body. *)
Theorem success_iff_answered
  (v : Variant) (link : string) (net : FetchOutcome) (u : URLobj) :
  parse_url link = Some u ->
  exists m, scrapeMetadata parse_url v link net = Returned m
            /\ success m = answered net.
Proof.
  intros Hu. unfold answered. destruct (load net) as [page|e] eqn:El.
  - destruct (try_block_answered v link net u page Hu El) as (m & Hm & Hs).
    exists m. split; [|done]. rewrite scrapeMetadata_try_catch.
    by apply try_catch_returned.
  - eexists. split.
    + apply scrapeMetadata_fallback with (e := e); [done|].
      by apply try_block_load_throws.
    + by destruct v.
Qed.

Lemma normalize_imageA_no_http link i r :
  normalize_imageA parse_url link i = Returned (Some r) ->
  JS.startsWith "http://" r = false.
Proof.
  unfold normalize_imageA. intros H.
  apply bind_returned in H as (a & _ & H). destruct a as [s|]; [|discriminate].
  rewrite force_https_replace in H. injection H as <-. apply force_https_no_http.
Qed.

(** A record that variant A returns always has an image, and never one that
    starts with [http://]: it is the placeholder or a reference forced to
    https. *)
Theorem variantA_image_present_and_https (link : string) (net : FetchOutcome) :
  match scrapeMetadata parse_url VariantA link net with
  | Returned m =>
      JS.truthy (image m) = true /\ JS.startsWith "http://" (image m) = false
  | Threw _ => True
  end.
Proof.
  destruct (scrapeMetadata parse_url VariantA link net) as [m|e] eqn:E; [|done].
  apply scrapeMetadata_cases in E as [E|(e & u & _ & _ & ->)];
    [|split; reflexivity].
  simpl in E. unfold try_blockA in E.
  apply bind_returned in E as (page & _ & E).
  apply bind_returned in E as (t & _ & E).
  apply bind_returned in E as (i1 & _ & E).
  apply bind_returned in E as (i2 & Hn & E).
  apply bind_returned in E as (i3 & Hi & E).
  injection E as <-. simpl.
  destruct (JS.truthy_opt i2) eqn:Et; simpl in Hi.
  - destruct i2 as [i|]; [|discriminate]. injection Hi as <-. simpl.
    split; [exact Et|]. by eapply normalize_imageA_no_http.
  - apply bind_returned in Hi as (u & _ & Hi). injection Hi as <-.
    split; reflexivity.
Qed.

Lemma try_block_description v link net m :
  try_block parse_url v link net = Returned m ->
  exists d, description m = JS.trim d /\ (String.length d <= 203)%nat.
Proof.
  destruct v; simpl; unfold try_blockA, try_blockB; intros E;
    repeat (apply bind_returned in E as (? & _ & E)); injection E as <-;
    simpl; eexists; (split; [reflexivity|]).
  - destruct (isGenericDescription _ _); [simpl; lia|].
    destruct (JS.truthy _) eqn:Et; simpl.
    + destruct (200 <? _)%nat eqn:El; [apply truncate_length|].
      apply Nat.ltb_ge in El. lia.
    + apply truthy_nonempty in Et. lia.
  - destruct (200 <? _)%nat eqn:El; [apply truncate_length|].
    apply Nat.ltb_ge in El. lia.
Qed.

(** The description of a returned record is never longer than 203
    characters (200 and the ellipsis), and carries no white space at either
    end. *)
Theorem description_bounded_and_trimmed
  (v : Variant) (link : string) (net : FetchOutcome) :
  match scrapeMetadata parse_url v link net with
  | Returned m =>
      (String.length (description m) <= 203)%nat
      /\ JS.trim (description m) = description m
  | Threw _ => True
  end.
Proof.
  destruct (scrapeMetadata parse_url v link net) as [m|e] eqn:E; [|done].
  apply scrapeMetadata_cases in E as [E|(e & u & _ & _ & ->)].
  - apply try_block_description in E as (d & -> & Hd). split.
    + pose proof (trim_length d). lia.
    + apply trim_idempotent.
  - destruct v; simpl; split; (lia || reflexivity).
Qed.

(** The title of a record of a page that answered is the trimmed form of a
    candidate of the title chain, so it carries no white space at either
    end. *)
Theorem answered_title_trimmed
  (v : Variant) (link : string) (net : FetchOutcome) (m : LinkMetadata) :
  scrapeMetadata parse_url v link net = Returned m ->
  success m = true ->
  JS.trim (title m) = title m.
Proof.
  intros E Hs. apply scrapeMetadata_cases in E as [E|(e & u & _ & _ & ->)].
  - destruct v; simpl in E; unfold try_blockA, try_blockB in E;
      repeat (apply bind_returned in E as (? & _ & E)); injection E as <-;
      apply trim_idempotent.
  - by destruct v.
Qed.

End RecordFacts.

Lemma success_iff_answered_witness :
  exists m,
    scrapeMetadata WHATWG.parse VariantA "https://example.com/"
      (Response false 404 None) = Returned m
    /\ success m = false.
Proof.
  apply (success_iff_answered WHATWG.parse VariantA "https://example.com/"
           (Response false 404 None)
           {| protocol := "https:"; hostname := "example.com";
              origin := "https://example.com" |}).
  reflexivity.
Defined.

Lemma answered_title_trimmed_witness :
  JS.trim "Title" = "Title".
Proof.
  apply (answered_title_trimmed WHATWG.parse VariantB "https://example.com/"
           (ok_response (sample_page "  Title " None None))
           {| url := "https://example.com/"; title := "Title";
              description := EmptyString; image := EmptyString;
              success := true |}); reflexivity.
Defined.

(* ===================================================================== *)
(** ** More on the orchestrator *)
(* ===================================================================== *)

Lemma startsWith_app p s : JS.startsWith p (p ++ s) = true.
Proof.
  induction p as [|c p IH]; [done|]. rewrite app_cons. cbn [JS.startsWith].
  by rewrite Ascii.eqb_refl, IH.
Qed.

Lemma page_path_dist c : JS.startsWith "dist/" (page_path c) = true.
Proof. apply startsWith_app. Qed.

Lemma last_written_outside p collections :
  JS.startsWith "dist/" p = false -> last_written p collections = None.
Proof.
  intros Hp. unfold last_written.
  induction collections as [|c cs IH]; [done|]. cbn [List.filter].
  destruct (String.eqb_spec (page_path c) p) as [<-|]; [|exact IH].
  by rewrite page_path_dist in Hp.
Qed.

Lemma last_written_cons p c collections :
  last_written p (c :: collections)
  = match last_written p collections with
    | Some c' => Some c'
    | None => if String.eqb (page_path c) p then Some c else None
    end.
Proof.
  unfold last_written. cbn [List.filter].
  destruct (String.eqb (page_path c) p); [apply last_cons|].
  by destruct (last _).
Qed.

Section OrchestratorFacts.

Variable parse_url : string -> option URLobj.
Variable v : Variant.
Variable net : nat -> string -> FetchOutcome.

Lemma scrapeMetadata_threw link outcome e :
  scrapeMetadata parse_url v link outcome = Threw e -> e = InvalidURL.
Proof.
  intros E. rewrite scrapeMetadata_try_catch in E.
  destruct (try_block parse_url v link outcome); [discriminate|].
  simpl in E. destruct v; unfold catch_blockA, catch_blockB, new_URL in E;
    destruct (parse_url link); simpl in E; congruence.
Qed.

Lemma scrape_links_threw urls : forall n e,
  scrape_links parse_url v net n urls = Threw e -> e = InvalidURL.
Proof.
  induction urls as [|link rest IH]; intros n e; simpl; [discriminate|].
  destruct (scrapeMetadata parse_url v link (net n link)) eqn:Em; simpl.
  - destruct (scrape_links parse_url v net (S n) rest) eqn:Er; simpl;
      [discriminate|]. intros [= <-]. by eapply IH.
  - intros [= <-]. by eapply scrapeMetadata_threw.
Qed.

Lemma scrape_links_order urls : forall n r,
  scrape_links parse_url v net n urls = Returned r ->
  r.2 = (n + length urls)%nat
  /\ forall i link, urls !! i = Some link ->
       exists m, r.1 !! i = Some m
                 /\ scrapeMetadata parse_url v link (net (n + i)%nat link)
                    = Returned m.
Proof.
  induction urls as [|link rest IH]; simpl; intros n r H.
  - injection H as <-. split; [simpl; lia | intros i l Hi; discriminate Hi].
  - apply bind_returned in H as (m & Hm & H).
    apply bind_returned in H as (r' & Hr' & H). injection H as <-. simpl.
    destruct (IH _ _ Hr') as [Hc Hi]. split; [lia|].
    intros [|i] l Hl; simpl in Hl.
    + injection Hl as <-. exists m. by rewrite Nat.add_0_r.
    + destruct (Hi i l Hl) as (m' & Hm' & Hs). exists m'. split; [done|].
      by replace (n + S i)%nat with (S n + i)%nat by lia.
Qed.

(** The inner loop of the fetch pass makes one fetch per link, in the order
    of the links: the record at position [i] is the one [scrapeMetadata]
    returns for the link at position [i] on fetch number [n + i], and the
    only exception that ends the loop early is the one of the URL
    constructor. *)
Theorem scrape_links_one_fetch_per_link (urls : list string) (n : nat) :
  match scrape_links parse_url v net n urls with
  | Returned r =>
      r.2 = (n + length urls)%nat
      /\ forall i link, urls !! i = Some link ->
           exists m, r.1 !! i = Some m
                     /\ scrapeMetadata parse_url v link (net (n + i)%nat link)
                        = Returned m
  | Threw e => e = InvalidURL
  end.
Proof.
  destruct (scrape_links parse_url v net n urls) as [r|e] eqn:E.
  - by apply scrape_links_order.
  - by eapply scrape_links_threw.
Qed.

Lemma fetch_pass_count collections : forall n r,
  fetch_pass parse_url v net n collections = Returned r ->
  r.2 = (n + total_links collections)%nat.
Proof.
  unfold total_links.
  induction collections as [|c rest IH]; simpl; intros n r H.
  - injection H as <-. simpl. lia.
  - apply bind_returned in H as (m & Hm & H).
    apply bind_returned in H as (r' & Hr' & H). injection H as <-. simpl.
    apply scrape_links_order in Hm as [Hm _]. apply IH in Hr'.
    rewrite length_app. lia.
Qed.

Lemma fetch_pass_threw collections : forall n e,
  fetch_pass parse_url v net n collections = Threw e -> e = InvalidURL.
Proof.
  induction collections as [|c rest IH]; intros n e; simpl; [discriminate|].
  destruct (scrape_links parse_url v net n (links c)) as [m|e'] eqn:Em; simpl.
  - destruct (fetch_pass parse_url v net m.2 rest) eqn:Er; simpl;
      [discriminate|]. intros [= <-]. by eapply IH.
  - intros [= <-]. by eapply scrape_links_threw.
Qed.

(** A fetch pass that comes to its end has made exactly as many fetches as
    the collections have links; one that does not has ended with the
    exception of the URL constructor. *)
Theorem fetch_pass_fetches_each_link_once
  (collections : list Collection) (n : nat) :
  match fetch_pass parse_url v net n collections with
  | Returned r => r.2 = (n + total_links collections)%nat
  | Threw e => e = InvalidURL
  end.
Proof.
  destruct (fetch_pass parse_url v net n collections) as [r|e] eqn:E.
  - by apply fetch_pass_count.
  - by eapply fetch_pass_threw.
Qed.

Lemma write_pages_files collections : forall fs p,
  files (write_pages v collections fs) !! p
  = match last_written p collections with
    | Some c => Some (generateCollectionPage v c (metadata c))
    | None => files fs !! p
    end.
Proof.
  induction collections as [|c cs IH]; intros fs p; [done|].
  change (write_pages v (c :: cs) fs)
    with (write_pages v cs
            (writeFileSync (page_path c)
               (generateCollectionPage v c (metadata c)) fs)).
  rewrite IH, last_written_cons. destruct (last_written p cs); [done|].
  cbn [writeFileSync files].
  destruct (String.eqb_spec (page_path c) p) as [<-|Hne].
  - apply lookup_insert_eq.
  - by apply lookup_insert_ne.
Qed.

Lemma write_pages_dirs collections : forall fs,
  dirs (write_pages v collections fs) = dirs fs.
Proof.
  induction collections as [|c cs IH]; intros fs; [done|].
  change (write_pages v (c :: cs) fs)
    with (write_pages v cs
            (writeFileSync (page_path c)
               (generateCollectionPage v c (metadata c)) fs)).
  by rewrite IH.
Qed.

(** After the loop that writes the pages, a path holds the page of the last
    collection written to it, and what it held before when no collection is
    written to it; the directories are the same. *)
Theorem write_pages_last_writer_wins
  (collections : list Collection) (fs : FileSystem) (p : string) :
  files (write_pages v collections fs) !! p
  = match last_written p collections with
    | Some c => Some (generateCollectionPage v c (metadata c))
    | None => files fs !! p
    end
  /\ dirs (write_pages v collections fs) = dirs fs.
Proof. split; [apply write_pages_files | apply write_pages_dirs]. Qed.

Lemma build_files fs fs' :
  build parse_url v net fs = Returned fs' ->
  exists content r,
    files fs !! "links.md" = Some content
    /\ fetch_pass parse_url v net 0 (parseLinks content) = Returned r
    /\ is_Some (files fs !! "src/style.css")
    /\ dirs fs' = (if existsSync "dist" fs then dirs fs
                   else {["dist"]} ∪ dirs fs)
    /\ forall p,
         files fs' !! p
         = if String.eqb p "dist/style.css" then files fs !! "src/style.css"
           else match last_written p r.1 with
                | Some c => Some (generateCollectionPage v c (metadata c))
                | None =>
                    if String.eqb p "dist/index.html"
                    then Some (generateHomePage r.1)
                    else files fs !! p
                end.
Proof.
  unfold build, parseLinksFile, copyFileSync, readFileSync. intros H.
  apply bind_returned in H as (cols & Hc & H).
  apply bind_returned in Hc as (content & Hcontent & Hc).
  destruct (files fs !! "links.md") as [content'|] eqn:El; [|discriminate].
  injection Hcontent as ->. injection Hc as <-.
  apply bind_returned in H as (r & Hr & H).
  apply bind_returned in H as (css & Hcss & H). injection H as <-.
  set (fs1 := if negb (existsSync "dist" fs) then mkdirSync "dist" fs else fs) in *.
  assert (Hf1 : files fs1 = files fs) by (subst fs1; by destruct (negb _)).
  assert (Hcss' : files fs !! "src/style.css" = Some css).
  { rewrite write_pages_files, (last_written_outside "src/style.css") in Hcss
      by reflexivity.
    simpl in Hcss. rewrite lookup_insert_ne, Hf1 in Hcss by discriminate.
    by destruct (files fs !! "src/style.css"); [injection Hcss as ->|]. }
  exists content, r. split; [done|]. split; [done|]. split; [by eexists|].
  split.
  - simpl. rewrite write_pages_dirs. simpl. subst fs1.
    by destruct (existsSync "dist" fs).
  - intros p. simpl. destruct (String.eqb_spec p "dist/style.css") as [->|Hp].
    + by rewrite lookup_insert_eq.
    + rewrite lookup_insert_ne by done. rewrite write_pages_files.
      destruct (last_written p r.1); [done|]. simpl.
      destruct (String.eqb_spec p "dist/index.html") as [->|Hi].
      * by rewrite lookup_insert_eq.
      * rewrite lookup_insert_ne by done. by rewrite Hf1.
Qed.

(** What a build that comes to its end leaves in the file system:
    [dist/style.css] is the stylesheet; any other path holds the page of the
    last collection whose slug gives that path, so that a collection whose
    slug is [index] replaces the home page; [dist/index.html] otherwise
    holds the home page; every other path holds what it held before.  The
    directory [dist] is added when it did not exist. *)
Theorem build_output (fs fs' : FileSystem) :
  build parse_url v net fs = Returned fs' ->
  exists content r,
    files fs !! "links.md" = Some content
    /\ fetch_pass parse_url v net 0 (parseLinks content) = Returned r
    /\ is_Some (files fs !! "src/style.css")
    /\ dirs fs' = (if existsSync "dist" fs then dirs fs
                   else {["dist"]} ∪ dirs fs)
    /\ forall p,
         files fs' !! p
         = if String.eqb p "dist/style.css" then files fs !! "src/style.css"
           else match last_written p r.1 with
                | Some c => Some (generateCollectionPage v c (metadata c))
                | None =>
                    if String.eqb p "dist/index.html"
                    then Some (generateHomePage r.1)
                    else files fs !! p
                end.
Proof. apply build_files. Qed.

End OrchestratorFacts.

Lemma build_output_witness :
  exists fs' page,
    build WHATWG.parse VariantB sample_net (sample_fs index_links) = Returned fs'
    /\ files fs' !! "dist/index.html" = Some page
    /\ JS.includes "<h1>Index</h1>" page = true
    /\ JS.includes "<h1>Resource Collections</h1>" page = false.
Proof.
  destruct (build WHATWG.parse VariantB sample_net (sample_fs index_links))
    as [fs'|e] eqn:E; [|vm_compute in E; discriminate E].
  destruct (build_output WHATWG.parse VariantB sample_net _ _ E)
    as (content & r & Hc & Hr & _ & _ & H).
  vm_compute in Hc. injection Hc as <-.
  vm_compute in Hr. injection Hr as <-.
  exists fs'. eexists. split; [done|]. split; [rewrite H; vm_compute; reflexivity|].
  split; vm_compute; reflexivity.
Defined.

Lemma scrape_links_one_fetch_per_link_witness :
  exists r,
    scrape_links WHATWG.parse VariantB sample_net 0
      ["https://example.com/"; "https://down.example.com/"] = Returned r
    /\ r.2 = 2%nat /\ map success r.1 = [true; false].
Proof.
  pose proof (scrape_links_one_fetch_per_link WHATWG.parse VariantB sample_net
                ["https://example.com/"; "https://down.example.com/"] 0) as H.
  destruct (scrape_links WHATWG.parse VariantB sample_net 0 _) as [r|e] eqn:E;
    [|vm_compute in E; discriminate E].
  exists r. destruct H as [Hc _]. split; [done|]. split; [exact Hc|].
  vm_compute in E. injection E as <-. reflexivity.
Defined.

(* ===================================================================== *)
(** ** The run over the file system *)
(* ===================================================================== *)

Lemma outside_kept_refl fs : outside_kept fs fs.
Proof. by intros p _. Qed.

Lemma outside_kept_trans fs1 fs2 fs3 :
  outside_kept fs1 fs2 -> outside_kept fs2 fs3 -> outside_kept fs1 fs3.
Proof. intros H12 H23 p Hp. by rewrite (H23 p Hp), (H12 p Hp). Qed.

Lemma keeps_outside_ret {A : Type} (a : A) : keeps_outside (run_ret a).
Proof. intros fs. apply outside_kept_refl. Qed.

Lemma keeps_outside_pure {A : Type} (c : Result A) : keeps_outside (run_pure c).
Proof. intros fs. apply outside_kept_refl. Qed.

Lemma keeps_outside_bind {A B : Type} (c : Run A) (k : A -> Run B) :
  keeps_outside c -> (forall a, keeps_outside (k a)) ->
  keeps_outside (run_bind c k).
Proof.
  intros Hc Hk fs. unfold run_bind. specialize (Hc fs).
  destruct (c fs) as [[a|e] fs']; simpl in *; [|done].
  eapply outside_kept_trans; [exact Hc | apply Hk].
Qed.

Lemma run_bind_threw {A B : Type} (c : Run A) (k : A -> Run B) fs e fs' :
  c fs = (Threw e, fs') -> run_bind c k fs = (Threw e, fs').
Proof. unfold run_bind. by intros ->. Qed.

Lemma run_bind_returned {A B : Type} (c : Run A) (k : A -> Run B) fs a fs' :
  c fs = (Returned a, fs') -> run_bind c k fs = k a fs'.
Proof. unfold run_bind. by intros ->. Qed.

Section RunFacts.

Variable parse_url : string -> option URLobj.
Variable v : Variant.
Variable net : nat -> string -> FetchOutcome.
Variable refuses : FileSystem -> string -> bool.

Lemma keeps_outside_read path : keeps_outside (run_read refuses path).
Proof.
  intros fs. unfold run_read. destruct (refuses fs path); apply outside_kept_refl.
Qed.

Lemma keeps_outside_exists path : keeps_outside (run_exists path).
Proof. intros fs. apply outside_kept_refl. Qed.

Lemma keeps_outside_mkdir path : keeps_outside (run_mkdir refuses path).
Proof.
  intros fs. unfold run_mkdir.
  destruct (refuses fs path); [apply outside_kept_refl|]. by intros p _.
Qed.

Lemma keeps_outside_write path data :
  JS.startsWith "dist/" path = true ->
  keeps_outside (run_write refuses path data).
Proof.
  intros Hpath fs. unfold run_write.
  destruct (refuses fs path); [apply outside_kept_refl|].
  intros p Hp. simpl. apply lookup_insert_ne. intros ->. congruence.
Qed.

Lemma keeps_outside_write_pages collections :
  keeps_outside (run_write_pages v refuses collections).
Proof.
  induction collections as [|c cs IH]; [apply keeps_outside_ret|].
  apply keeps_outside_bind; [|done].
  apply keeps_outside_write, page_path_dist.
Qed.

Lemma keeps_outside_build :
  keeps_outside (build_run parse_url v net refuses).
Proof.
  unfold build_run, run_copy.
  repeat first
    [ apply keeps_outside_bind; [|intros ?]
    | apply keeps_outside_read
    | apply keeps_outside_pure
    | apply keeps_outside_exists
    | apply keeps_outside_write_pages
    | apply keeps_outside_write; reflexivity
    | match goal with
      | |- keeps_outside (if ?b then _ else _) => destruct b
      end
    | apply keeps_outside_mkdir
    | apply keeps_outside_ret ].
Qed.

(** No run of the build, whether it comes to its end or throws on the way,
    and whatever the operating system refuses, changes a file whose path
    does not start with [dist/]. *)
Theorem build_run_keeps_outside_dist (fs : FileSystem) (p : string) :
  JS.startsWith "dist/" p = false ->
  files (build_run parse_url v net refuses fs).2 !! p = files fs !! p.
Proof. intros Hp. by apply keeps_outside_build. Qed.

(** Nothing is written before the link file has been read and the whole
    fetch pass has come to its end: a run that fails on the link file, or on
    a link that makes [scrapeMetadata] throw, leaves the file system as it
    was. *)
Theorem build_run_writes_after_fetch_pass (fs : FileSystem) :
  (build_run parse_url v net refuses fs).2 = fs
  \/ exists content r,
       refuses fs "links.md" = false
       /\ files fs !! "links.md" = Some content
       /\ fetch_pass parse_url v net 0 (parseLinks content) = Returned r.
Proof.
  unfold build_run.
  destruct (refuses fs "links.md") eqn:Er.
  { left. erewrite run_bind_threw; [reflexivity|].
    unfold run_read. by rewrite Er. }
  destruct (files fs !! "links.md") as [content|] eqn:El.
  2:{ left. erewrite run_bind_threw; [reflexivity|].
      unfold run_read, readFileSync. by rewrite Er, El. }
  erewrite run_bind_returned
    by (unfold run_read, readFileSync; rewrite Er, El; reflexivity).
  destruct (fetch_pass parse_url v net 0 (parseLinks content)) as [r|e] eqn:Ef.
  - right. by exists content, r.
  - left. by erewrite run_bind_threw.
Qed.

End RunFacts.

(** When nothing is refused, the run ends as [build] does, and a run that
    comes to its end leaves the file system [build] returns. *)
Lemma run_write_pages_total v collections : forall fs,
  run_write_pages v nothing_refused collections fs
  = (Returned tt, write_pages v collections fs).
Proof.
  induction collections as [|c cs IH]; intros fs; [done|].
  cbn [run_write_pages]. unfold run_bind, run_write, nothing_refused.
  apply IH.
Qed.

Lemma build_run_total parse_url v net fs :
  (build_run parse_url v net nothing_refused fs).1
  = match build parse_url v net fs with
    | Returned _ => Returned tt
    | Threw e => Threw e
    end
  /\ forall fs', build parse_url v net fs = Returned fs' ->
       (build_run parse_url v net nothing_refused fs).2 = fs'.
Proof.
  unfold build_run, build, parseLinksFile, copyFileSync.
  destruct (readFileSync "links.md" fs) as [content|e] eqn:El; cbn [bind].
  2:{ erewrite run_bind_threw by (unfold run_read, nothing_refused; by rewrite El).
      by split. }
  erewrite run_bind_returned
    by (unfold run_read, nothing_refused; by rewrite El).
  destruct (fetch_pass parse_url v net 0 (parseLinks content)) as [r|e] eqn:Ef;
    cbn [bind].
  2:{ erewrite run_bind_threw by reflexivity. by split. }
  erewrite run_bind_returned by reflexivity.
  erewrite run_bind_returned by reflexivity.
  set (fs1 := if negb (existsSync "dist" fs) then mkdirSync "dist" fs else fs).
  erewrite (run_bind_returned _ _ fs tt fs1)
    by (subst fs1; by destruct (negb _)).
  erewrite run_bind_returned by reflexivity.
  erewrite run_bind_returned by apply run_write_pages_total.
  unfold run_copy. set (fs3 := write_pages v r.1 _).
  destruct (readFileSync "src/style.css" fs3) as [css|e] eqn:Ec; cbn [bind].
  - erewrite run_bind_returned
      by (unfold run_read, nothing_refused; by rewrite Ec).
    split; [done|]. by intros fs' [= <-].
  - erewrite run_bind_threw by (unfold run_read, nothing_refused; by rewrite Ec).
    by split.
Qed.

Lemma build_run_keeps_outside_dist_witness :
  files (build_run WHATWG.parse VariantA sample_net nothing_refused
           (sample_fs rejected_link_file)).2 !! "links.md"
  = Some rejected_link_file.
Proof.
  rewrite (build_run_keeps_outside_dist WHATWG.parse VariantA sample_net
             nothing_refused (sample_fs rejected_link_file) "links.md");
    reflexivity.
Defined.
